(** * Shallow embedding of the prompt-assembly and story-analysis core
    of src/src/app/utils/prompts (PromptManager.ts, storyAnalysis.ts).

    Strings are Rocq [string]s (lists of 8-bit characters); the regular
    expressions of the sources use the ASCII classes [\w], [A-Z], [a-z],
    which are decided here character by character.  The tiktoken
    tokenizer is outside the repository: it is a pair of functions
    [encode]/[decode] taken as section variables. *)

From Stdlib Require Import ZArith Lia List Ascii String Sorted Permutation.
From stdpp Require Import base gmap strings list.

Open Scope string_scope.
Open Scope Z_scope.

(* ------------------------------------------------------------------ *)
(** ** JavaScript string helpers *)

Module JsString.

Definition nl : string := String (ascii_of_nat 10) EmptyString.

(** [s.startsWith(p)] *)
Fixpoint starts_with (p s : string) : bool :=
  match p, s with
  | EmptyString, _ => true
  | String a p', String b s' => Ascii.eqb a b && starts_with p' s'
  | String _ _, EmptyString => false
  end.

(** [s.includes(p)] *)
Fixpoint includes (s p : string) : bool :=
  starts_with p s ||
  match s with
  | EmptyString => false
  | String _ s' => includes s' p
  end.

(** [s.indexOf(p)] as a natural offset, [None] for -1 *)
Fixpoint index_of (s p : string) : option nat :=
  if starts_with p s then Some 0%nat
  else match s with
       | EmptyString => None
       | String _ s' => option_map S (index_of s' p)
       end.

(** [s.indexOf(p, from)] with [from] within the string *)
Definition index_of_from (s p : string) (from : nat) : option nat :=
  option_map (fun k => (from + k)%nat) (index_of (substring from (String.length s) s) p).

(** [s.substring(a, b)] for [a <= b] *)
Definition js_substring (s : string) (a b : nat) : string :=
  substring a (b - a) s.

(** ASCII [toLowerCase] *)
Definition lower_char (c : ascii) : ascii :=
  let n := nat_of_ascii c in
  if (65 <=? n)%nat && (n <=? 90)%nat then ascii_of_nat (n + 32) else c.

Fixpoint to_lower (s : string) : string :=
  match s with
  | EmptyString => EmptyString
  | String c s' => String (lower_char c) (to_lower s')
  end.

(** the JavaScript white-space characters of the ASCII range *)
Definition is_space (c : ascii) : bool :=
  let n := nat_of_ascii c in
  (n =? 32)%nat || ((9 <=? n)%nat && (n <=? 13)%nat).

Fixpoint trim_start (s : string) : string :=
  match s with
  | EmptyString => EmptyString
  | String c s' => if is_space c then trim_start s' else s
  end.

Fixpoint rev_string (s : string) : string :=
  match s with
  | EmptyString => EmptyString
  | String c s' => rev_string s' ++ String c EmptyString
  end.

(** [s.trim()] *)
Definition trim (s : string) : string :=
  rev_string (trim_start (rev_string (trim_start s))).

(** [xs.join(sep)] *)
Fixpoint join (sep : string) (xs : list string) : string :=
  match xs with
  | [] => EmptyString
  | [x] => x
  | x :: xs' => x ++ sep ++ join sep xs'
  end.

(** regular-expression classes *)
Definition is_upper (c : ascii) : bool :=
  let n := nat_of_ascii c in (65 <=? n)%nat && (n <=? 90)%nat.
Definition is_lower (c : ascii) : bool :=
  let n := nat_of_ascii c in (97 <=? n)%nat && (n <=? 122)%nat.
Definition is_digit (c : ascii) : bool :=
  let n := nat_of_ascii c in (48 <=? n)%nat && (n <=? 57)%nat.
(** [\w] *)
Definition is_word_char (c : ascii) : bool :=
  is_upper c || is_lower c || is_digit c || Ascii.eqb c "_"%char.

End JsString.
Import JsString.

(* ------------------------------------------------------------------ *)
(** ** Tokenizer adapter (PromptManager.countTokens / truncateToTokenLimit) *)

Section Tokenizer.

Context {token : Type}.
(** [this.tokenizer.encode] and the string value of [this.tokenizer.decode] *)
Variable encode : string -> list token.
Variable decode : list token -> string.

(** [countTokens(text)] *)
Definition countTokens (text : string) : Z :=
  match text with
  | EmptyString => 0
  | _ => Z.of_nat (length (encode text))
  end.

(** [tokens.slice(0, n)] *)
Definition js_slice0 {A} (l : list A) (n : Z) : list A :=
  if n <? 0 then firstn (Z.to_nat (Z.max 0 (Z.of_nat (length l) + n))) l
  else firstn (Z.to_nat n) l.

(** [truncateToTokenLimit(text, maxTokens)] *)
Definition truncateToTokenLimit (text : string) (maxTokens : Z) : string :=
  match text with
  | EmptyString => EmptyString
  | _ =>
    let tokens := encode text in
    if Z.of_nat (length tokens) <=? maxTokens then text
    else decode (js_slice0 tokens maxTokens) ++ " [truncated]"
  end.

End Tokenizer.

(** A character-level tokenizer: every character is one token.  It is a
    lossless tokenizer (decode after encode is the identity), used to
    evaluate the code on concrete inputs. *)
Definition char_encode (s : string) : list ascii := list_ascii_of_string s.
Definition char_decode (l : list ascii) : string := string_of_list_ascii l.

Example trunc_ex :
  truncateToTokenLimit char_encode char_decode "hello" 2 = "he [truncated]".
Proof. reflexivity. Qed.

(* ------------------------------------------------------------------ *)
(** ** Prompt component model (PromptManager.ts, lines 16-116) *)

Inductive SupportedModel := gpt_4o | gpt_4_turbo | gpt_4 | gpt_3_5_turbo.

Inductive PromptComponentType :=
  | system | instruction | context | example | user_input | formatting.

Definition PromptComponentType_eqb (a b : PromptComponentType) : bool :=
  match a, b with
  | system, system | instruction, instruction | context, context
  | example, example | user_input, user_input | formatting, formatting => true
  | _, _ => false
  end.

Record PromptComponent := mkComponent {
  id : string;
  type : PromptComponentType;
  content : string;
  required : option bool;
  maxTokens : option Z;
  priority : option Z
}.

Record TokenBudget := mkBudget {
  total : Z;
  budget_system : option Z;
  budget_instruction : option Z;
  budget_context : option Z;
  budget_example : option Z;
  budget_user_input : option Z;
  budget_formatting : option Z;
  reserved : option Z
}.

(** [DEFAULT_TOKEN_BUDGETS] *)
Definition DEFAULT_TOKEN_BUDGETS (m : SupportedModel) : TokenBudget :=
  match m with
  | gpt_4o | gpt_4_turbo =>
      mkBudget 128000 (Some 1000) (Some 2000) (Some 100000) (Some 3000)
               (Some 10000) (Some 500) (Some 8000)
  | gpt_4 =>
      mkBudget 8192 (Some 800) (Some 1000) (Some 4000) (Some 1000)
               (Some 500) (Some 300) (Some 592)
  | gpt_3_5_turbo =>
      mkBudget 16385 (Some 500) (Some 800) (Some 10000) (Some 800)
               (Some 300) (Some 200) (Some 500)
  end.

(** one record of [BuiltPrompt.components] *)
Record ComponentEntry := mkEntry {
  entry_id : string;
  entry_type : PromptComponentType;
  tokens : Z;
  included : bool
}.

Record BuiltPrompt := mkBuilt {
  systemPrompt : string;
  userPrompt : string;
  systemTokens : Z;
  userTokens : Z;
  totalTokens : Z;
  components : list ComponentEntry
}.

(* ------------------------------------------------------------------ *)
(** ** Template variables: a plain JavaScript object *)

(** [templateVariables] is an object literal: a property read
    [this.templateVariables[key]] finds an own property first and
    otherwise a member inherited from [Object.prototype].  The own
    properties are a [gmap]; the inherited members are listed with the
    string they convert to (the replacement callback's result is
    converted with ToString). *)
Definition object_prototype_member (k : string) : option string :=
  if String.eqb k "__proto__" then Some "[object Object]"
  else if String.eqb k "constructor" then Some "function Object() { [native code] }"
  else if existsb (String.eqb k)
     ["toString"; "toLocaleString"; "valueOf"; "hasOwnProperty";
      "isPrototypeOf"; "propertyIsEnumerable"; "__defineGetter__";
      "__defineSetter__"; "__lookupGetter__"; "__lookupSetter__"]
  then Some ("function " ++ k ++ "() { [native code] }")
  else None.

(** [obj[k]] *)
Definition js_get (obj : gmap string string) (k : string) : option string :=
  match obj !! k with
  | Some v => Some v
  | None => object_prototype_member k
  end.

(** [obj[k] = v]: without an own [__proto__] property the assignment
    reaches the [Object.prototype.__proto__] setter, which ignores a
    string value. *)
Definition js_set (obj : gmap string string) (k v : string) : gmap string string :=
  if String.eqb k "__proto__" && negb (bool_decide (is_Some (obj !! k)))
  then obj
  else <[k := v]> obj.

(** [{...a, ...b}]: own properties of [b] override those of [a] *)
Definition js_spread (a b : gmap string string) : gmap string string := b ∪ a.

Definition lbrace : ascii := "{"%char.
Definition rbrace : ascii := "}"%char.

(** the maximal run of [\w] characters at the start of a string *)
Fixpoint word_prefix (s : string) : string * string :=
  match s with
  | String c s' =>
      if is_word_char c then let (w, r) := word_prefix s' in (String c w, r)
      else (EmptyString, s)
  | EmptyString => (EmptyString, EmptyString)
  end.

(** [text.replace(/\{\{(\w+)\}\}/g, f)]: at each position the pattern
    matches iff two opening braces are followed by a non-empty maximal
    [\w] run and two closing braces; scanning resumes after a match and
    one character further on a failure. *)
Fixpoint replace_placeholders (f : string -> string) (fuel : nat) (s : string) : string :=
  match fuel with
  | O => s
  | S fuel' =>
    match s with
    | EmptyString => EmptyString
    | String c1 s1 =>
      let fallback := String c1 (replace_placeholders f fuel' s1) in
      if Ascii.eqb c1 lbrace then
        match s1 with
        | String c2 s2 =>
          if Ascii.eqb c2 lbrace then
            match word_prefix s2 with
            | (String w0 w, String c3 (String c4 rest)) =>
                if Ascii.eqb c3 rbrace && Ascii.eqb c4 rbrace
                then f (String w0 w) ++ replace_placeholders f fuel' rest
                else fallback
            | _ => fallback
            end
          else fallback
        | EmptyString => fallback
        end
      else fallback
    end
  end.

(** [`{{${key}}}`] *)
Definition placeholder (key : string) : string :=
  String lbrace (String lbrace (key ++ String rbrace (String rbrace EmptyString))).

(** the callback [(_, key) => this.templateVariables[key] || `{{${key}}}`]:
    [||] keeps the value unless it is falsy, and the only falsy string
    is the empty one *)
Definition substitute (vars : gmap string string) (key : string) : string :=
  match js_get vars key with
  | Some v => if String.eqb v "" then placeholder key else v
  | None => placeholder key
  end.

(** [applyTemplateVariables(text)] *)
Definition applyTemplateVariables (vars : gmap string string) (text : string) : string :=
  replace_placeholders (substitute vars) (String.length text) text.

Example apply_ex :
  applyTemplateVariables (<["name" := "Sam"]> ∅) "Hi {{name}}, {{age}}{{{" =
  "Hi Sam, {{age}}{{{".
Proof. reflexivity. Qed.

(* ------------------------------------------------------------------ *)
(** ** The PromptManager object and its mutating methods *)

Record PromptManager := mkPM {
  pm_model : SupportedModel;
  pm_tokenBudget : TokenBudget;
  pm_components : list PromptComponent;
  pm_templateVariables : gmap string string
}.

(** [Partial<TokenBudget>]: [None] is an absent field *)
Record PartialBudget := mkPartial {
  p_total : option Z;
  p_system : option Z;
  p_instruction : option Z;
  p_context : option Z;
  p_example : option Z;
  p_user_input : option Z;
  p_formatting : option Z;
  p_reserved : option Z
}.

Definition override (o : option Z) (d : option Z) : option Z :=
  match o with Some v => Some v | None => d end.

(** [{...DEFAULT_TOKEN_BUDGETS[model], ...customTokenBudget}] *)
Definition merge_budget (d : TokenBudget) (p : PartialBudget) : TokenBudget :=
  mkBudget (match p_total p with Some v => v | None => total d end)
           (override (p_system p) (budget_system d))
           (override (p_instruction p) (budget_instruction d))
           (override (p_context p) (budget_context d))
           (override (p_example p) (budget_example d))
           (override (p_user_input p) (budget_user_input d))
           (override (p_formatting p) (budget_formatting d))
           (override (p_reserved p) (reserved d)).

(** [new PromptManager(model, customTokenBudget)] *)
Definition newPromptManager (model : SupportedModel) (custom : option PartialBudget)
  : PromptManager :=
  mkPM model
       (match custom with
        | Some p => merge_budget (DEFAULT_TOKEN_BUDGETS model) p
        | None => DEFAULT_TOKEN_BUDGETS model
        end)
       [] ∅.

(** A method that may throw: the result and the object's state when it
    returns or throws. *)
Inductive result (A : Type) : Type :=
  | Ok (a : A)
  | Err (message : string).
Arguments Ok {A} a.
Arguments Err {A} message.

Definition PM (A : Type) : Type := PromptManager -> result A * PromptManager.

Definition pm_ret {A} (a : A) : PM A := fun s => (Ok a, s).
Definition pm_throw {A} (msg : string) : PM A := fun s => (Err msg, s).
Definition pm_bind {A B} (m : PM A) (k : A -> PM B) : PM B :=
  fun s => match m s with
           | (Ok a, s') => k a s'
           | (Err e, s') => (Err e, s')
           end.
Definition pm_modify (f : PromptManager -> PromptManager) : PM unit :=
  fun s => (Ok tt, f s).
Definition pm_get : PM PromptManager := fun s => (Ok s, s).

Definition set_components (cs : list PromptComponent) (s : PromptManager) : PromptManager :=
  mkPM (pm_model s) (pm_tokenBudget s) cs (pm_templateVariables s).
Definition set_variables (v : gmap string string) (s : PromptManager) : PromptManager :=
  mkPM (pm_model s) (pm_tokenBudget s) (pm_components s) v.

Definition dquote : string := String (ascii_of_nat 34) EmptyString.

(** [addComponent(component)] *)
Definition addComponent (component : PromptComponent) : PM unit :=
  pm_bind pm_get (fun s =>
    if existsb (fun c => String.eqb (id c) (id component)) (pm_components s)
    then pm_throw ("Component with ID " ++ dquote ++ id component ++ dquote
                   ++ " already exists")
    else pm_modify (set_components (pm_components s ++ [component]))).

(** [addComponents(components)]: [components.forEach(c => this.addComponent(c))] *)
Fixpoint addComponents (cs : list PromptComponent) : PM unit :=
  match cs with
  | [] => pm_ret tt
  | c :: cs' => pm_bind (addComponent c) (fun _ => addComponents cs')
  end.

(** [removeComponent(id)] *)
Definition removeComponent (i : string) : PM unit :=
  pm_bind pm_get (fun s =>
    pm_modify (set_components (List.filter (fun c => negb (String.eqb (id c) i))
                                      (pm_components s)))).

(** [setTemplateVariables(variables)] *)
Definition setTemplateVariables (variables : gmap string string) : PM unit :=
  pm_bind pm_get (fun s =>
    pm_modify (set_variables (js_spread (pm_templateVariables s) variables))).

(** [setTemplateVariable(key, value)] *)
Definition setTemplateVariable (key value : string) : PM unit :=
  pm_bind pm_get (fun s =>
    pm_modify (set_variables (js_set (pm_templateVariables s) key value))).

(* ------------------------------------------------------------------ *)
(** ** buildPrompt *)

(** [(component.priority || 0)] *)
Definition prio (c : PromptComponent) : Z :=
  match priority c with Some p => p | None => 0 end.

(** [component.required] as a condition *)
Definition is_required (c : PromptComponent) : bool :=
  match required c with Some true => true | _ => false end.

(** [[...components].sort((a, b) => (b.priority || 0) - (a.priority || 0))]:
    a stable sort (ECMAScript 2019), by descending priority *)
Fixpoint insert_desc {A} (key : A -> Z) (c : A) (l : list A) : list A :=
  match l with
  | [] => [c]
  | d :: l' => if key c <? key d then d :: insert_desc key c l' else c :: l
  end.

Fixpoint sort_desc {A} (key : A -> Z) (l : list A) : list A :=
  match l with
  | [] => []
  | c :: l' => insert_desc key c (sort_desc key l')
  end.

Definition sort_by_priority (l : list PromptComponent) : list PromptComponent :=
  sort_desc prio l.

(** [this.tokenBudget[type]] *)
Definition budget_for_type (b : TokenBudget) (t : PromptComponentType) : option Z :=
  match t with
  | system => budget_system b
  | instruction => budget_instruction b
  | context => budget_context b
  | example => budget_example b
  | user_input => budget_user_input b
  | formatting => budget_formatting b
  end.

(** [this.tokenBudget[type] || Infinity]; [None] is [Infinity] *)
Definition maxTypeTokens_of (b : TokenBudget) (t : PromptComponentType) : option Z :=
  match budget_for_type b t with
  | Some v => if v =? 0 then None else Some v
  | None => None
  end.

(** [x <= limit] with a possibly infinite limit *)
Definition le_limit (x : Z) (limit : option Z) : bool :=
  match limit with Some m => x <=? m | None => true end.

(** [(this.tokenBudget.reserved || 0)] *)
Definition reserved_or_0 (b : TokenBudget) : Z :=
  match reserved b with Some r => r | None => 0 end.

Definition is_system (t : PromptComponentType) : bool :=
  match t with system => true | _ => false end.

Definition with_content (c : PromptComponent) (s : string) : PromptComponent :=
  mkComponent (id c) (type c) s (required c) (maxTokens c) (priority c).

(** the local variables of the loop of [buildPrompt] *)
Record BuildState := mkBS {
  systemComponents : list PromptComponent;
  userComponents : list PromptComponent;
  systemTokenCount : Z;
  userTokenCount : Z;
  includedComponents : list ComponentEntry
}.

Definition init_state : BuildState := mkBS [] [] 0 0 [].

Section Assembler.

Context {token : Type}.
Variable encode : string -> list token.
Variable decode : list token -> string.

(** one iteration of [for (const component of sortedComponents)] *)
Definition build_step (budget : TokenBudget) (vars : gmap string string)
  (st : BuildState) (component : PromptComponent) : BuildState :=
  let sys := systemTokenCount st in
  let usr := userTokenCount st in
  let processedContent := applyTemplateVariables vars (content component) in
  let tokenCount := countTokens encode processedContent in
  let maxTypeTokens := maxTypeTokens_of budget (type component) in
  let canIncludeInSystem :=
    is_system (type component) && le_limit (sys + tokenCount) maxTypeTokens in
  let canIncludeInUser :=
    negb (is_system (type component)) &&
    (usr + tokenCount <=? total budget - sys - reserved_or_0 budget) in
  if is_required component && negb canIncludeInSystem && negb canIncludeInUser then
    (* [truncateToTokenLimit(text, Infinity)] returns [text] *)
    let truncatedContent :=
      if is_system (type component) then
        match maxTypeTokens with
        | Some m => truncateToTokenLimit encode decode processedContent (Z.max 0 (m - sys))
        | None => processedContent
        end
      else truncateToTokenLimit encode decode processedContent
             (Z.max 0 (total budget - sys - usr - reserved_or_0 budget)) in
    let truncatedTokenCount := countTokens encode truncatedContent in
    let entry := mkEntry (id component) (type component) truncatedTokenCount true in
    if is_system (type component) then
      mkBS (systemComponents st ++ [with_content component truncatedContent])
           (userComponents st) (sys + truncatedTokenCount) usr
           (includedComponents st ++ [entry])
    else
      mkBS (systemComponents st)
           (userComponents st ++ [with_content component truncatedContent])
           sys (usr + truncatedTokenCount)
           (includedComponents st ++ [entry])
  else if (is_system (type component) && canIncludeInSystem) ||
          (negb (is_system (type component)) && canIncludeInUser) then
    let entry := mkEntry (id component) (type component) tokenCount true in
    if is_system (type component) then
      mkBS (systemComponents st ++ [with_content component processedContent])
           (userComponents st) (sys + tokenCount) usr
           (includedComponents st ++ [entry])
    else
      mkBS (systemComponents st)
           (userComponents st ++ [with_content component processedContent])
           sys (usr + tokenCount)
           (includedComponents st ++ [entry])
  else
    mkBS (systemComponents st) (userComponents st) sys usr
         (includedComponents st ++ [mkEntry (id component) (type component) tokenCount false]).

Definition build_loop (budget : TokenBudget) (vars : gmap string string)
  (cs : list PromptComponent) (st : BuildState) : BuildState :=
  fold_left (build_step budget vars) cs st.

Definition paragraph_sep : string := nl ++ nl.

(** the state after the loop of [buildPrompt()] *)
Definition buildState (pm : PromptManager) : BuildState :=
  build_loop (pm_tokenBudget pm) (pm_templateVariables pm)
             (sort_by_priority (pm_components pm)) init_state.

(** [buildPrompt()] *)
Definition buildPrompt (pm : PromptManager) : BuiltPrompt :=
  let st := buildState pm in
  mkBuilt (join paragraph_sep (map content (systemComponents st)))
          (join paragraph_sep (map content (userComponents st)))
          (systemTokenCount st) (userTokenCount st)
          (systemTokenCount st + userTokenCount st)
          (includedComponents st).

(** [createChatCompletionMessages()] *)
Definition createChatCompletionMessages (pm : PromptManager) : list (string * string) :=
  let bp := buildPrompt pm in
  (if String.eqb (systemPrompt bp) "" then [] else [("system", systemPrompt bp)]) ++
  (if String.eqb (userPrompt bp) "" then [] else [("user", userPrompt bp)]).

End Assembler.

(* ------------------------------------------------------------------ *)
(** ** Story content analysis (storyAnalysis.ts) *)

Inductive NarrativeType := introduction | action | climax | resolution.

Record NarrativeElement := mkNE {
  paragraphIndex : Z;
  element_type : NarrativeType;
  importance : Z;
  characters : list string;
  setting : string;
  ne_action : string;
  description : string;
  emotionalTone : string
}.

Record CharacterDescription := mkChar {
  name : string;
  char_description : string;
  firstAppearance : Z;
  char_importance : Z
}.

Record SettingDescription := mkSetting {
  setting_name : string;
  setting_description : string;
  setting_firstAppearance : Z
}.

Record StoryAnalysis := mkAnalysis {
  title : string;
  theme : option string;
  mainCharacters : list CharacterDescription;
  settings : list SettingDescription;
  narrativeElements : list NarrativeElement;
  recommendedImageParagraphs : list Z
}.

(** [paragraphs[i]] for an index within the array *)
Definition par (ps : list string) (i : Z) : string := nth (Z.to_nat i) ps "".

Definition plen (ps : list string) : Z := Z.of_nat (length ps).

(** the maximal runs of [\w] characters of a string, left to right *)
Fixpoint words_acc (s : string) (cur : string) : list string :=
  match s with
  | EmptyString => match cur with EmptyString => [] | _ => [rev_string cur] end
  | String c s' =>
      if is_word_char c then words_acc s' (String c cur)
      else match cur with
           | EmptyString => words_acc s' EmptyString
           | _ => rev_string cur :: words_acc s' EmptyString
           end
  end.

Definition words (s : string) : list string := words_acc s EmptyString.

(** [[A-Z][a-z]+] *)
Definition is_name (w : string) : bool :=
  match w with
  | String c (String d r) => is_upper c && is_lower d && forallb is_lower (list_ascii_of_string r)
  | _ => false
  end.

(** [text.match(/\b[A-Z][a-z]+\b/g) || []]: the word boundaries make a
    match exactly a maximal [\w] run of the form [[A-Z][a-z]+] *)
Definition match_names (text : string) : list string := List.filter is_name (words text).

Definition commonWords : list string :=
  ["The"; "A"; "An"; "It"; "This"; "That"; "Then"; "But"; "And"].

Definition in_list (x : string) (l : list string) : bool := existsb (String.eqb x) l.

(** [(fullText.match(new RegExp(`\\b${name}\\b`, 'g')) || []).length] for a
    name of the form [[A-Z][a-z]+] *)
Definition count_word (text name : string) : Z :=
  Z.of_nat (length (List.filter (String.eqb name) (words text))).

(** [record[k] = v] on an object whose keys keep insertion order *)
Fixpoint assoc_set (l : list (string * Z)) (k : string) (v : Z) : list (string * Z) :=
  match l with
  | [] => [(k, v)]
  | (k', v') :: l' => if String.eqb k k' then (k, v) :: l' else (k', v') :: assoc_set l' k v
  end.

(** [extractCharacters(paragraphs)], as the entries of the record *)
Definition extractCharacters (paragraphs : list string) : list (string * Z) :=
  let fullText := join " " paragraphs in
  fold_left (fun acc nm =>
      if in_list nm commonWords then acc
      else let count := count_word fullText nm in
           if 2 <=? count then assoc_set acc nm count else acc)
    (match_names fullText) [].

Definition is_terminator (c : ascii) : bool :=
  Ascii.eqb c "."%char || Ascii.eqb c "!"%char || Ascii.eqb c "?"%char.

(** the longest prefix matched by [[^.!?]*] *)
Fixpoint take_sentence (s : string) : string :=
  match s with
  | EmptyString => EmptyString
  | String c s' => if is_terminator c then EmptyString else String c (take_sentence s')
  end.

(** [text.match(new RegExp(`${name}[^.!?]*was[^.!?]*`, 'i'))]: the leftmost
    position where the name matches and the rest of its sentence holds
    [was]; the match runs to the end of that sentence *)
Fixpoint desc_match (nm : string) (s : string) : option string :=
  let here :=
    if starts_with (to_lower nm) (to_lower s) then
      let seg := take_sentence (substring (String.length nm) (String.length s) s) in
      if includes (to_lower seg) "was"
      then Some (substring 0 (String.length nm) s ++ seg) else None
    else None in
  match here with
  | Some m => Some m
  | None => match s with
            | EmptyString => None
            | String _ s' => desc_match nm s'
            end
  end.

(** [content.findIndex(p => p.toLowerCase().includes(name.toLowerCase()))] *)
Fixpoint find_index_from (i : Z) (ps : list string) (nm : string) : Z :=
  match ps with
  | [] => -1
  | p :: ps' => if includes (to_lower p) (to_lower nm) then i else find_index_from (i + 1) ps' nm
  end.

(** [Math.ceil(mentions / 2)] for an integer [mentions] *)
Definition ceil_half (m : Z) : Z := (m + 1) / 2.

(** the [map] callback of [analyzeStoryContent] *)
Definition to_character (content : list string) (entry : string * Z) : CharacterDescription :=
  let (nm, mentions) := entry in
  let firstApp := find_index_from 0 content nm in
  let desc := match desc_match nm (join " " content) with
              | Some m => m
              | None => "Character named " ++ nm
              end in
  mkChar nm desc (if 0 <=? firstApp then firstApp else 0)
         (Z.min 10 (Z.max 1 (ceil_half mentions))).

Definition settingIndicators : list string :=
  ["in the"; "at the"; "inside"; "outside"; "in a"; "near the";
   "beneath"; "within"; "around"; "village"; "forest"; "castle";
   "house"; "room"; "city"; "town"; "kingdom"; "ocean"; "sea"; "school"].

(** [paragraph.substring(position, sentenceEnd > position ? sentenceEnd : paragraph.length)]
    with [position = paragraph.toLowerCase().indexOf(indicator)] *)
Definition phrase_at (paragraph indicator : string) : string :=
  let position := match index_of (to_lower paragraph) indicator with
                  | Some k => k | None => 0%nat end in
  let stop := match index_of_from paragraph "." position with
              | Some e => if (position <? e)%nat then e else String.length paragraph
              | None => String.length paragraph
              end in
  js_substring paragraph position stop.

(** [extractSettings(paragraphs)] *)
Definition extractSettings (paragraphs : list string) : list SettingDescription :=
  let early := firstn 5 paragraphs in
  flat_map (fun '(idx, paragraph) =>
      match find (fun ind => includes (to_lower paragraph) ind) settingIndicators with
      | Some ind => [mkSetting (trim (phrase_at paragraph ind)) paragraph (Z.of_nat idx)]
      | None => []
      end)
    (combine (seq 0 (length early)) early).

(** [extractNamesFromParagraph(paragraph)] *)
Definition extractNamesFromParagraph (paragraph : string) : list string :=
  List.filter (fun nm => negb (in_list nm commonWords)) (match_names paragraph).

(** [extractSettingFromParagraph(paragraph)] *)
Definition extractSettingFromParagraph (paragraph : string) : string :=
  match find (fun ind => includes (to_lower paragraph) ind)
             ["in the"; "at the"; "inside"; "outside"; "in a"; "near the"] with
  | Some ind => trim (phrase_at paragraph ind)
  | None => ""
  end.

(** alternative [a] of [\b(...)[^.!?]+] matching at the start of [s]
    (case-insensitively) with one more non-terminator character *)
Definition alt_matches (s a : string) : bool :=
  starts_with a (to_lower s) &&
  match substring (String.length a) (String.length s) s with
  | String c _ => negb (is_terminator c)
  | EmptyString => false
  end.

(** first match of [/\b(alts)[^.!?]+/gi]; [prev_word] tells whether the
    character before [s] is a [\w] character *)
Fixpoint action_match (alts : list string) (prev_word : bool) (s : string) : option string :=
  match s with
  | EmptyString => None
  | String c s' =>
      if negb prev_word && existsb (alt_matches s) alts then Some (take_sentence s)
      else action_match alts (is_word_char c) s'
  end.

Definition actionPatterns : list (list string) :=
  [["ran"; "jumped"; "flew"; "swam"; "climbed"; "found"; "discovered";
    "opened"; "closed"; "said"; "shouted"; "whispered"];
   ["looked"; "saw"; "heard"; "felt"; "touched"; "smelled"; "tasted"];
   ["went"; "came"; "moved"; "traveled"; "journeyed"; "walked"]].

(** [extractActionFromParagraph(paragraph)] *)
Fixpoint first_action (pats : list (list string)) (paragraph : string) : string :=
  match pats with
  | [] => ""
  | pat :: pats' =>
      match action_match pat false paragraph with
      | Some m => trim m
      | None => first_action pats' paragraph
      end
  end.

Definition extractActionFromParagraph (paragraph : string) : string :=
  first_action actionPatterns paragraph.

Definition toneKeywords : list (string * list string) :=
  [("happy", ["happy"; "joy"; "excited"; "fun"; "laugh"; "smile"; "delight"]);
   ("sad", ["sad"; "unhappy"; "cry"; "tear"; "lonely"; "sorrow"; "upset"]);
   ("scared", ["afraid"; "fear"; "scary"; "terrified"; "frightened"; "nervous"]);
   ("angry", ["angry"; "mad"; "furious"; "rage"; "yelled"; "shouted"]);
   ("peaceful", ["calm"; "quiet"; "peaceful"; "gentle"; "soft"; "serene"]);
   ("mysterious", ["mystery"; "strange"; "weird"; "curious"; "wonder"; "magical"]);
   ("adventurous", ["adventure"; "explore"; "discover"; "journey"; "quest"; "exciting"])].

(** number of the keywords the (lower-cased) text includes *)
Definition keyword_hits (text : string) (kws : list string) : Z :=
  Z.of_nat (length (List.filter (includes text) kws)).

(** [determineEmotionalTone(paragraph)] *)
Definition determineEmotionalTone (paragraph : string) : string :=
  let lowerParagraph := to_lower paragraph in
  snd (fold_left (fun '(maxCount, dominant) '(tone, kws) =>
           let count := keyword_hits lowerParagraph kws in
           if maxCount <? count then (count, tone) else (maxCount, dominant))
        toneKeywords (0, "neutral")).

(** the indices [i] visited by
    [for (let i = startIdx; i <= endIdx && i < paragraphs.length; i++)] *)
Definition loop_indices (startIdx endIdx len : Z) : list Z :=
  map (fun k => startIdx + Z.of_nat k)
      (seq 0 (Z.to_nat (Z.min (endIdx + 1) len - startIdx))).

(** the best-score scan shared by both finders: the first index with the
    highest score, if that score is positive, else -1 *)
Definition scan_step (score : Z -> Z) (acc : Z * Z) (i : Z) : Z * Z :=
  let '(best, highest) := acc in
  let sc := score i in
  if highest <? sc then (i, sc) else (best, highest).

Definition best_index (score : Z -> Z) (idxs : list Z) : Z :=
  fst (fold_left (scan_step score) idxs (-1, 0)).

Definition actionWords : list string :=
  ["suddenly"; "quickly"; "raced"; "jumped"; "ran"; "flew";
   "shouted"; "exclaimed"; "burst"; "surprise"; "discovery"].

Definition action_score (paragraphs : list string) (i : Z) : Z :=
  keyword_hits (to_lower (par paragraphs i)) actionWords.

(** [findActionParagraph(paragraphs, startIdx, endIdx)] *)
Definition findActionParagraph (paragraphs : list string) (startIdx endIdx : Z) : Z :=
  let bestParagraphIdx :=
    best_index (action_score paragraphs) (loop_indices startIdx endIdx (plen paragraphs)) in
  if (bestParagraphIdx =? -1) && (startIdx <=? endIdx) && (endIdx <? plen paragraphs)
  then (startIdx + endIdx) / 2
  else bestParagraphIdx.

Definition climaxIndicators : list string :=
  ["finally"; "suddenly"; "at last"; "to their surprise";
   "amazing"; "incredible"; "astonished"; "shocked"; "realized";
   "discovered"; "found"; "revealed"].

Fixpoint count_char (c : ascii) (s : string) : Z :=
  match s with
  | EmptyString => 0
  | String d s' => (if Ascii.eqb c d then 1 else 0) + count_char c s'
  end.

(** indicator hits plus [(paragraph.match(/!/g) || []).length * 2] *)
Definition climax_score (paragraphs : list string) (i : Z) : Z :=
  let paragraph := to_lower (par paragraphs i) in
  keyword_hits paragraph climaxIndicators + count_char "!"%char paragraph * 2.

(** [findClimaxParagraph(paragraphs, startIdx, endIdx)];
    [Math.floor(paragraphs.length * 0.75)] is [3 * length / 4] exactly *)
Definition findClimaxParagraph (paragraphs : list string) (startIdx endIdx : Z) : Z :=
  let bestParagraphIdx :=
    best_index (climax_score paragraphs) (loop_indices startIdx endIdx (plen paragraphs)) in
  if bestParagraphIdx =? -1
  then Z.min (plen paragraphs * 3 / 4) (plen paragraphs - 1)
  else bestParagraphIdx.

(** the element record pushed for paragraph [i] *)
Definition element_at (paragraphs : list string) (i : Z) (t : NarrativeType) (imp : Z)
  : NarrativeElement :=
  let p := par paragraphs i in
  mkNE i t imp (extractNamesFromParagraph p) (extractSettingFromParagraph p)
       (extractActionFromParagraph p) p (determineEmotionalTone p).

(** [identifyNarrativeElements(paragraphs)].  For a paragraph count [n]
    below 2^50, [Math.floor(n * 0.6)] and [Math.floor(n * 0.9)] are
    [3n/5] and [9n/10]: the rounding error of the double products never
    crosses an integer. *)
Definition identifyNarrativeElements (paragraphs : list string) : list NarrativeElement :=
  let totalParagraphs := plen paragraphs in
  (if 0 <? totalParagraphs then [element_at paragraphs 0 introduction 9] else []) ++
  (if 2 <? totalParagraphs then
     let actionParagraphIndex :=
       findActionParagraph paragraphs 1 (totalParagraphs * 3 / 5) in
     if negb (actionParagraphIndex =? -1)
     then [element_at paragraphs actionParagraphIndex action 7] else []
   else []) ++
  (if 3 <? totalParagraphs then
     let climaxIdx :=
       findClimaxParagraph paragraphs (totalParagraphs * 3 / 5) (totalParagraphs * 9 / 10) in
     if negb (climaxIdx =? -1)
     then [element_at paragraphs climaxIdx climax 10] else []
   else []) ++
  (if 1 <? totalParagraphs
   then [element_at paragraphs (totalParagraphs - 1) resolution 8] else []).

(** [arr.indexOf(x)] *)
Fixpoint index_of_Z (l : list Z) (x : Z) : option nat :=
  match l with
  | [] => None
  | y :: l' => if y =? x then Some 0%nat else option_map S (index_of_Z l' x)
  end.

(** [[...new Set(l)]]: first occurrences, in order *)
Definition set_values (l : list Z) : list Z :=
  fold_left (fun acc x => if existsb (Z.eqb x) acc then acc else (acc ++ [x])%list) l [].

(** [.sort((a, b) => a - b)] *)
Fixpoint insert_asc (x : Z) (l : list Z) : list Z :=
  match l with
  | [] => [x]
  | y :: l' => if y <? x then y :: insert_asc x l' else x :: l
  end.

Fixpoint sort_asc (l : list Z) : list Z :=
  match l with
  | [] => []
  | x :: l' => insert_asc x (sort_asc l')
  end.

(** [selectOptimalImageParagraphs(paragraphs, narrativeElements, characters)] *)
Definition selectOptimalImageParagraphs (paragraphs : list string)
  (narrativeElements : list NarrativeElement) (chars : list CharacterDescription)
  : list Z :=
  let sortedElements := sort_desc importance narrativeElements in
  let recommendedParagraphs := map paragraphIndex (firstn 4 sortedElements) in
  let recommendedParagraphs :=
    match chars with
    | c0 :: _ =>
      if existsb (Z.eqb (firstAppearance c0)) recommendedParagraphs
      then recommendedParagraphs
      else if (length recommendedParagraphs <? 4)%nat
      then (recommendedParagraphs ++ [firstAppearance c0])%list
      else match last sortedElements with
           | None => recommendedParagraphs
           | Some least =>
             if importance least <? 8 then
               match index_of_Z recommendedParagraphs (paragraphIndex least) with
               | Some k => <[k := firstAppearance c0]> recommendedParagraphs
               | None => recommendedParagraphs
               end
             else recommendedParagraphs
           end
    | [] => recommendedParagraphs
    end in
  sort_asc (set_values recommendedParagraphs).

(** [analyzeStoryContent(title, content, theme)] *)
Definition analyzeStoryContent (ttl : string) (content : list string) (thm : option string)
  : StoryAnalysis :=
  let characterMentions := extractCharacters content in
  let sets := extractSettings content in
  let elems := identifyNarrativeElements content in
  let mains := firstn 3 (sort_desc char_importance (map (to_character content) characterMentions)) in
  mkAnalysis ttl thm mains sets elems (selectOptimalImageParagraphs content elems mains).

Example analyze_ex :
  recommendedImageParagraphs
    (analyzeStoryContent "T" ["Sam ran to the forest."; "Sam found a key."; "The fox watched Sam."] None)
  = [0; 1; 2].
Proof. vm_compute. reflexivity. Qed.

Example chars_ex :
  map (fun c => (name c, char_importance c, firstAppearance c))
    (mainCharacters (analyzeStoryContent "T"
       ["Sam ran to the forest."; "Sam found a key."; "The fox watched Sam."] None))
  = [("Sam", 2, 0)].
Proof. vm_compute. reflexivity. Qed.

(* ------------------------------------------------------------------ *)
(** ** PromptManager.createTemplate *)

(** the object returned by [PromptManager.createTemplate(templateName, components)] *)
Record PromptTemplate := mkTemplate {
  template_name : string;
  template_components : list PromptComponent
}.

Definition createTemplate (templateName : string) (components : list PromptComponent)
  : PromptTemplate :=
  mkTemplate templateName components.

(** [template.instantiate(model, variables)]: a fresh manager, then
    [addComponents(components)] (whose exception propagates) and
    [setTemplateVariables(variables)] *)
Definition instantiate (t : PromptTemplate) (model : SupportedModel)
  (variables : gmap string string) : result PromptManager :=
  fst (pm_bind (addComponents (template_components t)) (fun _ =>
       pm_bind (setTemplateVariables variables) (fun _ => pm_get))
       (newPromptManager model None)).

(* ------------------------------------------------------------------ *)
(** ** Story prompt templates (storyPromptTemplates.ts) *)

Inductive StoryLength := short | medium | long.
Inductive ReadingLevel := easy | moderate | advanced.

(** the [options] argument: [{ storyLength?, readingLevel? }] *)
Record StoryOptions := mkOptions {
  storyLength : option StoryLength;
  readingLevel : option ReadingLevel
}.

(** [StoryGenerationParams]: [{ mode, template?, keywords?, options? }] *)
Record StoryGenerationParams := mkParams {
  mode : string;
  sp_template : option string;
  sp_keywords : option string;
  sp_options : option StoryOptions
}.

(** [options?.readingLevel] and [options?.storyLength] *)
Definition opt_readingLevel (options : option StoryOptions) : option ReadingLevel :=
  match options with Some o => readingLevel o | None => None end.
Definition opt_storyLength (options : option StoryOptions) : option StoryLength :=
  match options with Some o => storyLength o | None => None end.

(** an optional string used as a condition: defined and not [""] *)
Definition js_truthy (o : option string) : bool :=
  match o with Some s => negb (String.eqb s EmptyString) | None => false end.

Definition READING_LEVEL_INSTRUCTIONS (l : ReadingLevel) : string :=
  match l with
  | easy => "Use simple vocabulary with short sentences suitable for very young readers (ages 4-6). Avoid complex words."
  | moderate => "Use grade-appropriate vocabulary for children ages 7-8 with a mix of simple and moderately complex sentences."
  | advanced => "Use rich vocabulary appropriate for confident readers (ages 9-10) with some challenging words and varied sentence structures."
  end.

Definition STORY_LENGTH_INSTRUCTIONS (l : StoryLength) : string :=
  match l with
  | short => "4-6 paragraphs, perfect for a 2-3 minute read"
  | medium => "8-10 paragraphs, perfect for a 4-6 minute read"
  | long => "10-12 paragraphs, perfect for a 7-10 minute read"
  end.

Definition STORY_SYSTEM_PROMPT : PromptComponent :=
  mkComponent "story_system" system
    "You are a creative children's storywriter. You write engaging, age-appropriate stories for children ages 4-10. Your stories are imaginative, positive, and teach good values. Your tone is warm and friendly."
    (Some true) None (Some 10).

(** [m] then [k], discarding the result of [m] *)
Definition pm_then {B} (m : PM unit) (k : PM B) : PM B := pm_bind m (fun _ => k).

(** [if (x) { promptManager.addComponent(...) }] *)
Definition add_if {A} (o : option A) (mk : A -> PromptComponent) : PM unit :=
  match o with Some a => addComponent (mk a) | None => pm_ret tt end.

Definition reading_level_component (l : ReadingLevel) : PromptComponent :=
  mkComponent "reading_level" instruction (READING_LEVEL_INSTRUCTIONS l) None None (Some 8).

Definition story_length_component (l : StoryLength) : PromptComponent :=
  mkComponent "story_length" instruction
    ("The story should be " ++ STORY_LENGTH_INSTRUCTIONS l ++ ".") None None (Some 7).

(** The guidance and output-format texts are long template literals with
    no interpolation; they are parameters here, so every statement holds
    whatever their wording. *)
Section StoryPromptTexts.

Variables VISUALIZATION_GUIDANCE NARRATIVE_GUIDANCE KEY_MOMENTS_GUIDANCE
  TEMPLATE_FORMAT_INSTRUCTIONS KEYWORDS_FORMAT_INSTRUCTIONS : string.

Definition guidance_components : list PromptComponent :=
  [mkComponent "visualization" instruction VISUALIZATION_GUIDANCE None None (Some 6);
   mkComponent "narrative_guidance" instruction NARRATIVE_GUIDANCE None None (Some 6);
   mkComponent "key_moments_guidance" instruction KEY_MOMENTS_GUIDANCE None None (Some 5)].

Definition template_instruction (template : string) : PromptComponent :=
  mkComponent "story_instruction" instruction
    ("Create a children's story based on the theme: " ++ dquote ++ template ++ dquote ++ ".")
    (Some true) None (Some 9).

Definition keywords_instruction (keywords : string) : PromptComponent :=
  mkComponent "story_instruction" instruction
    ("Create a children's story using these keywords: " ++ keywords ++ ".")
    (Some true) None (Some 9).

Definition format_component (text : string) : PromptComponent :=
  mkComponent "format_instructions" formatting text (Some true) None (Some 4).

(** [createTemplateStoryPrompt(template, options)] *)
Definition createTemplateStoryPrompt (template : string) (options : option StoryOptions)
  : result PromptManager :=
  fst ((pm_then (addComponent STORY_SYSTEM_PROMPT)
       (pm_then (addComponent (template_instruction template))
       (pm_then (add_if (opt_readingLevel options) reading_level_component)
       (pm_then (add_if (opt_storyLength options) story_length_component)
       (pm_then (addComponents guidance_components)
       (pm_then (addComponent (format_component TEMPLATE_FORMAT_INSTRUCTIONS))
       (pm_then (setTemplateVariable "theme" template)
        pm_get)))))))
       (newPromptManager gpt_4o None)).

(** [createKeywordsStoryPrompt(keywords, options)] *)
Definition createKeywordsStoryPrompt (keywords : string) (options : option StoryOptions)
  : result PromptManager :=
  fst ((pm_then (addComponent STORY_SYSTEM_PROMPT)
       (pm_then (addComponent (keywords_instruction keywords))
       (pm_then (add_if (opt_readingLevel options) reading_level_component)
       (pm_then (add_if (opt_storyLength options) story_length_component)
       (pm_then (addComponents guidance_components)
       (pm_then (addComponent (format_component KEYWORDS_FORMAT_INSTRUCTIONS))
        pm_get))))))
       (newPromptManager gpt_4o None)).

(** [createStoryPrompt(params)] *)
Definition createStoryPrompt (params : StoryGenerationParams) : result PromptManager :=
  if String.eqb (mode params) "template" && js_truthy (sp_template params) then
    createTemplateStoryPrompt (match sp_template params with Some t => t | None => EmptyString end)
                              (sp_options params)
  else if String.eqb (mode params) "keywords" && js_truthy (sp_keywords params) then
    createKeywordsStoryPrompt (match sp_keywords params with Some k => k | None => EmptyString end)
                              (sp_options params)
  else Err "Invalid story generation parameters".

End StoryPromptTexts.

Section AnalysisPromptTexts.

Variables ANALYSIS_TASKS ANALYSIS_OUTPUT_FORMAT : string.

Definition analysis_system : PromptComponent :=
  mkComponent "analysis_system" system
    "You are a narrative analysis expert specializing in children's stories. Your task is to analyze stories to identify key moments, character attributes, emotional beats, and optimal illustration points."
    (Some true) None (Some 10).

Definition analysis_instruction (storyTitle : string) : PromptComponent :=
  mkComponent "analysis_instruction" instruction
    ("Analyze the following children's story " ++ dquote ++ storyTitle ++ dquote ++
     " and identify the optimal moments for illustrations, key character descriptions, emotional beats, and narrative structure.")
    (Some true) None (Some 9).

(** [storyContent.join('\n\n')] *)
Definition story_content_component (storyContent : list string) : PromptComponent :=
  mkComponent "story_content" context (join paragraph_sep storyContent) (Some true) None (Some 8).

Definition theme_component (theme : string) : PromptComponent :=
  mkComponent "theme_info" context ("The story's theme is: " ++ theme) None None (Some 7).

Definition analysis_tasks : PromptComponent :=
  mkComponent "analysis_tasks" instruction ANALYSIS_TASKS (Some true) None (Some 6).

Definition output_format : PromptComponent :=
  mkComponent "output_format" formatting ANALYSIS_OUTPUT_FORMAT (Some true) None (Some 5).

(** [if (theme) { promptManager.addComponent(...) }] *)
Definition add_theme (theme : option string) : PM unit :=
  match theme with
  | Some t => if js_truthy theme then addComponent (theme_component t) else pm_ret tt
  | None => pm_ret tt
  end.

(** [createNarrativeAnalysisPrompt(storyTitle, storyContent, theme)] *)
Definition createNarrativeAnalysisPrompt (storyTitle : string) (storyContent : list string)
  (theme : option string) : result PromptManager :=
  fst ((pm_then (addComponent analysis_system)
       (pm_then (addComponent (analysis_instruction storyTitle))
       (pm_then (addComponent (story_content_component storyContent))
       (pm_then (add_theme theme)
       (pm_then (addComponent analysis_tasks)
       (pm_then (addComponent output_format)
        pm_get))))))
       (newPromptManager gpt_4o None)).

End AnalysisPromptTexts.

(* ================================================================== *)
(** * Properties *)

(* ------------------------------------------------------------------ *)
(** ** Tokenizer adapter *)

Lemma js_slice0_nonneg {A} (l : list A) (n : Z) :
  0 <= n -> js_slice0 l n = firstn (Z.to_nat n) l.
Proof. intros Hn. unfold js_slice0. destruct (Z.ltb_spec n 0); [lia | reflexivity]. Qed.

Lemma countTokens_nonneg {token} (encode : string -> list token) (s : string) :
  0 <= countTokens encode s.
Proof. unfold countTokens. destruct s; lia. Qed.

(** For any tokenizer that gives a non-empty string at least one token,
    truncating a non-empty text to zero tokens leaves the marker alone,
    which has a positive token count. *)
Lemma truncate_zero_marker {token} (encode : string -> list token)
  (decode : list token -> string) (text : string) :
  (forall s, s <> EmptyString -> encode s <> []) ->
  text <> EmptyString ->
  truncateToTokenLimit encode decode text 0 = decode [] ++ " [truncated]" /\
  0 < countTokens encode (truncateToTokenLimit encode decode text 0).
Proof.
  intros Henc Htext.
  assert (Hne : encode text <> []) by (apply Henc; exact Htext).
  assert (Hlen : (0 < length (encode text))%nat)
    by (destruct (encode text); [congruence | simpl; lia]).
  unfold truncateToTokenLimit.
  destruct text as [|c t]; [congruence |].
  destruct (Z.leb_spec (Z.of_nat (length (encode (String c t)))) 0); [lia |].
  split; [reflexivity |].
  remember (decode (js_slice0 (encode (String c t)) 0) ++ " [truncated]") as r eqn:Hr.
  assert (Hrne : r <> EmptyString).
  { subst r. destruct (decode _); discriminate. }
  unfold countTokens. destruct r as [|c' r']; [congruence |].
  assert (Hr' : encode (String c' r') <> []) by (apply Henc; discriminate).
  destruct (encode (String c' r')); [congruence | simpl; lia].
Qed.

(** C1 (counterexample): with a character-level tokenizer, truncating
    ["hello"] to 2 tokens gives ["he [truncated]"], 14 tokens. *)
Lemma truncate_exceeds_limit :
  truncateToTokenLimit char_encode char_decode "hello" 2 = "he [truncated]" /\
  2 < countTokens char_encode (truncateToTokenLimit char_encode char_decode "hello" 2).
Proof. split; reflexivity. Qed.

(** C1 (amended): [truncateToTokenLimit(text, maxTokens)] returns [""] for
    [""]; returns [text] itself, within the limit, when [countTokens(text)]
    is at most [maxTokens]; and otherwise returns the decoding of the
    first [maxTokens] tokens followed by the marker [" [truncated]"],
    whose tokens are not counted against [maxTokens]. *)
Theorem truncateToTokenLimit_spec {token} (encode : string -> list token)
  (decode : list token -> string) (text : string) (maxTokens : Z) :
  0 <= maxTokens ->
  (text = EmptyString -> truncateToTokenLimit encode decode text maxTokens = EmptyString) /\
  (countTokens encode text <= maxTokens ->
     truncateToTokenLimit encode decode text maxTokens = text /\
     countTokens encode (truncateToTokenLimit encode decode text maxTokens) <= maxTokens) /\
  (maxTokens < countTokens encode text ->
     truncateToTokenLimit encode decode text maxTokens =
     decode (firstn (Z.to_nat maxTokens) (encode text)) ++ " [truncated]").
Proof.
  intros Hm. split; [intros ->; reflexivity |]. split.
  - intros Hle. unfold truncateToTokenLimit.
    destruct text as [|c t]; [split; [reflexivity | simpl; lia] |].
    unfold countTokens in Hle.
    destruct (Z.leb_spec (Z.of_nat (length (encode (String c t)))) maxTokens); [| lia].
    split; [reflexivity | exact Hle].
  - intros Hlt. unfold truncateToTokenLimit.
    destruct text as [|c t]; [simpl in Hlt; lia |].
    unfold countTokens in Hlt.
    destruct (Z.leb_spec (Z.of_nat (length (encode (String c t)))) maxTokens); [lia |].
    rewrite js_slice0_nonneg by exact Hm. reflexivity.
Qed.

Lemma truncateToTokenLimit_spec_witness :
  0 <= 2 /\
  truncateToTokenLimit char_encode char_decode "hello" 2 =
  char_decode (firstn 2 (char_encode "hello")) ++ " [truncated]".
Proof.
  split; [lia |].
  apply (proj2 (proj2 (truncateToTokenLimit_spec char_encode char_decode "hello" 2 ltac:(lia)))).
  reflexivity.
Defined.

(* ------------------------------------------------------------------ *)
(** ** addComponent / addComponents *)

(** some component of the list has id [i] *)
Definition has_id (cs : list PromptComponent) (i : string) : bool :=
  existsb (fun c => String.eqb (id c) i) cs.

Lemma has_id_spec (cs : list PromptComponent) (i : string) :
  has_id cs i = true <-> exists c, In c cs /\ id c = i.
Proof.
  unfold has_id. rewrite existsb_exists.
  split; intros [c [Hin Heq]]; exists c; split; auto;
    [apply String.eqb_eq | apply String.eqb_eq]; assumption.
Qed.

Lemma has_id_app (cs ds : list PromptComponent) (i : string) :
  has_id (cs ++ ds) i = has_id cs i || has_id ds i.
Proof. unfold has_id. apply existsb_app. Qed.

Lemma set_components_id (s : PromptManager) : set_components (pm_components s) s = s.
Proof. destruct s; reflexivity. Qed.

Lemma set_components_twice (s : PromptManager) cs ds :
  set_components cs (set_components ds s) = set_components cs s.
Proof. destruct s; reflexivity. Qed.

Lemma addComponent_fresh (s : PromptManager) (c : PromptComponent) :
  has_id (pm_components s) (id c) = false ->
  addComponent c s = (Ok tt, set_components (pm_components s ++ [c])%list s).
Proof.
  intros H. unfold addComponent, pm_bind, pm_get, pm_modify. simpl.
  unfold has_id in H. rewrite H. reflexivity.
Qed.

Lemma addComponent_taken (s : PromptManager) (c : PromptComponent) :
  has_id (pm_components s) (id c) = true ->
  exists msg, addComponent c s = (Err msg, s).
Proof.
  intros H. unfold addComponent, pm_bind, pm_get, pm_throw. simpl.
  unfold has_id in H. rewrite H. eexists. reflexivity.
Qed.

(** C5: once a component with id [x] has been offered, a second [addComponent]
    with the same id throws, and the object it throws from is left as it
    was: the first component is there and the second is not added. *)
Theorem addComponent_duplicate_rejected (s : PromptManager) (c1 c2 : PromptComponent)
  (r1 : result unit) (s1 : PromptManager) :
  id c1 = id c2 ->
  addComponent c1 s = (r1, s1) ->
  (r1 = Ok tt -> pm_components s1 = (pm_components s ++ [c1])%list) /\
  (exists c, In c (pm_components s1) /\ id c = id c2) /\
  (exists msg, addComponent c2 s1 = (Err msg, s1)).
Proof.
  intros Hid Hadd.
  destruct (has_id (pm_components s) (id c1)) eqn:Hh.
  - destruct (addComponent_taken s c1 Hh) as [msg Hm].
    rewrite Hm in Hadd. injection Hadd as <- <-.
    split; [discriminate |].
    assert (Hh2 : has_id (pm_components s) (id c2) = true) by (rewrite <- Hid; exact Hh).
    split; [apply has_id_spec; exact Hh2 | apply addComponent_taken; exact Hh2].
  - rewrite (addComponent_fresh s c1 Hh) in Hadd. injection Hadd as <- <-.
    split; [intros _; reflexivity |].
    assert (Hin : In c1 (pm_components (set_components (pm_components s ++ [c1])%list s))).
    { simpl. apply in_or_app. right. left. reflexivity. }
    split; [exists c1; split; [exact Hin | exact Hid] |].
    apply addComponent_taken. apply has_id_spec. exists c1. split; [exact Hin | exact Hid].
Qed.

Definition comp_x1 : PromptComponent := mkComponent "x" system "first" None None None.
Definition comp_x2 : PromptComponent := mkComponent "x" instruction "second" None None None.
Definition empty_pm : PromptManager := newPromptManager gpt_4o None.

Lemma addComponent_duplicate_rejected_witness :
  (exists c, In c (pm_components (snd (addComponent comp_x1 empty_pm))) /\ id c = id comp_x2) /\
  (exists msg, addComponent comp_x2 (snd (addComponent comp_x1 empty_pm)) =
               (Err msg, snd (addComponent comp_x1 empty_pm))).
Proof.
  destruct (addComponent_duplicate_rejected empty_pm comp_x1 comp_x2
              (fst (addComponent comp_x1 empty_pm)) (snd (addComponent comp_x1 empty_pm))
              eq_refl eq_refl) as [_ H].
  exact H.
Defined.

(** C9: [addComponents(list)] is not atomic.  When the elements before
    position [k] are all accepted and the element at [k] repeats an id
    already present, the call throws and leaves the object with the
    elements [0 .. k-1] appended. *)
Theorem addComponents_partial (s : PromptManager) (l : list PromptComponent)
  (k : nat) (c : PromptComponent) :
  nth_error l k = Some c ->
  (forall j cj, (j < k)%nat -> nth_error l j = Some cj ->
     has_id (pm_components s ++ firstn j l)%list (id cj) = false) ->
  has_id (pm_components s ++ firstn k l)%list (id c) = true ->
  exists msg, addComponents l s =
    (Err msg, set_components (pm_components s ++ firstn k l)%list s).
Proof.
  revert s k. induction l as [|c0 l IH]; intros s k Hk Hbefore Hdup.
  - destruct k; discriminate.
  - destruct k as [|k].
    + simpl in Hk. injection Hk as ->. simpl in Hdup. rewrite app_nil_r in Hdup.
      destruct (addComponent_taken s c Hdup) as [msg Hm].
      exists msg. simpl. unfold pm_bind. rewrite Hm.
      rewrite app_nil_r, set_components_id. reflexivity.
    + simpl in Hk.
      assert (H0 : has_id (pm_components s) (id c0) = false).
      { specialize (Hbefore 0%nat c0 ltac:(lia) eq_refl). simpl in Hbefore.
        rewrite app_nil_r in Hbefore. exact Hbefore. }
      set (s' := set_components (pm_components s ++ [c0])%list s).
      destruct (IH s' k Hk) as [msg Hm].
      * intros j cj Hj Hnth. unfold s'. simpl. rewrite <- app_assoc.
        apply (Hbefore (S j) cj); [lia | exact Hnth].
      * unfold s'. simpl. rewrite <- app_assoc. exact Hdup.
      * exists msg. simpl. unfold pm_bind. rewrite (addComponent_fresh s c0 H0).
        fold s'. rewrite Hm. unfold s'. rewrite set_components_twice.
        simpl. rewrite <- app_assoc. reflexivity.
Qed.

Definition comp_a : PromptComponent := mkComponent "a" system "A" None None None.
Definition comp_b : PromptComponent := mkComponent "b" instruction "B" None None None.
Definition comp_a' : PromptComponent := mkComponent "a" context "again" None None None.

Lemma addComponents_partial_witness :
  exists msg, addComponents [comp_a; comp_b; comp_a'; comp_x1] empty_pm =
    (Err msg, set_components (pm_components empty_pm ++ [comp_a; comp_b])%list empty_pm).
Proof.
  apply (addComponents_partial empty_pm [comp_a; comp_b; comp_a'; comp_x1] 2 comp_a').
  - reflexivity.
  - intros j cj Hj Hnth. destruct j as [|[|j]]; [| | lia];
      simpl in Hnth; injection Hnth as <-; reflexivity.
  - reflexivity.
Defined.

(* ------------------------------------------------------------------ *)
(** ** buildPrompt *)

Lemma insert_desc_perm {A} (key : A -> Z) (c : A) (l : list A) :
  Permutation (c :: l) (insert_desc key c l).
Proof.
  induction l as [|d l IH]; simpl; [reflexivity |].
  destruct (key c <? key d); [| reflexivity].
  eapply perm_trans; [apply perm_swap |]. constructor. exact IH.
Qed.

Lemma sort_desc_perm {A} (key : A -> Z) (l : list A) : Permutation l (sort_desc key l).
Proof.
  induction l as [|c l IH]; simpl; [reflexivity |].
  eapply perm_trans; [constructor; exact IH | apply insert_desc_perm].
Qed.

Definition sum_Z (l : list Z) : Z := fold_right Z.add 0 l.

Lemma sum_Z_app (l1 l2 : list Z) : sum_Z (l1 ++ l2) = sum_Z l1 + sum_Z l2.
Proof. induction l1; simpl; [reflexivity | rewrite IHl1; lia]. Qed.

Section AssemblerProofs.

Context {token : Type}.
Variable encode : string -> list token.
Variable decode : list token -> string.

(** the three outcomes of one iteration: appended to the system part,
    appended to the user part, or recorded as left out *)
Lemma build_step_cases (b : TokenBudget) (v : gmap string string)
  (st : BuildState) (c : PromptComponent) :
  (exists s', is_system (type c) = true /\
     (is_required c = false ->
        le_limit (systemTokenCount st + countTokens encode s') (maxTypeTokens_of b (type c)) = true) /\
     build_step encode decode b v st c =
       mkBS (systemComponents st ++ [with_content c s']) (userComponents st)
            (systemTokenCount st + countTokens encode s') (userTokenCount st)
            (includedComponents st ++ [mkEntry (id c) (type c) (countTokens encode s') true])) \/
  (exists s', is_system (type c) = false /\
     build_step encode decode b v st c =
       mkBS (systemComponents st) (userComponents st ++ [with_content c s'])
            (systemTokenCount st) (userTokenCount st + countTokens encode s')
            (includedComponents st ++ [mkEntry (id c) (type c) (countTokens encode s') true])) \/
  (is_required c = false /\
     build_step encode decode b v st c =
       mkBS (systemComponents st) (userComponents st) (systemTokenCount st) (userTokenCount st)
            (includedComponents st ++
               [mkEntry (id c) (type c)
                  (countTokens encode (applyTemplateVariables v (content c))) false])).
Proof.
  unfold build_step. cbv zeta.
  destruct (is_system (type c)) eqn:Hsys; simpl.
  - destruct (le_limit _ _) eqn:Hle; destruct (is_required c) eqn:Hreq; simpl.
    + left. eexists. split; [reflexivity |]. split; [discriminate | reflexivity].
    + left. eexists. split; [reflexivity |]. split; [intros _; exact Hle | reflexivity].
    + left. eexists. split; [reflexivity |]. split; [discriminate | reflexivity].
    + right. right. split; reflexivity.
  - destruct (Z.leb _ _) eqn:Hle; destruct (is_required c) eqn:Hreq; simpl.
    + right. left. eexists. split; reflexivity.
    + right. left. eexists. split; reflexivity.
    + right. left. eexists. split; reflexivity.
    + right. right. split; reflexivity.
Qed.

Lemma build_loop_app (b : TokenBudget) (v : gmap string string) cs ds st :
  build_loop encode decode b v (cs ++ ds) st =
  build_loop encode decode b v ds (build_loop encode decode b v cs st).
Proof. unfold build_loop. apply fold_left_app. Qed.

Lemma build_loop_entries_prefix (b : TokenBudget) (v : gmap string string) cs st :
  exists suffix, includedComponents (build_loop encode decode b v cs st) =
                 (includedComponents st ++ suffix)%list.
Proof.
  revert st. induction cs as [|c cs IH]; intros st.
  - exists []. rewrite app_nil_r. reflexivity.
  - simpl. destruct (IH (build_step encode decode b v st c)) as [suf Hsuf].
    unfold build_loop in *. simpl. rewrite Hsuf.
    destruct (build_step_cases b v st c) as [[s' [_ [_ ->]]] | [[s' [_ ->]] | [_ ->]]];
      simpl; eexists; rewrite <- app_assoc; reflexivity.
Qed.

Lemma build_loop_required (b : TokenBudget) (v : gmap string string) cs st c :
  In c cs -> is_required c = true ->
  exists e, In e (includedComponents (build_loop encode decode b v cs st)) /\
            entry_id e = id c /\ entry_type e = type c /\ included e = true.
Proof.
  revert st. induction cs as [|c0 cs IH]; intros st Hin Hreq; [destruct Hin |].
  destruct Hin as [-> | Hin]; [| apply IH; assumption].
  simpl. fold (build_loop encode decode b v cs (build_step encode decode b v st c)).
  destruct (build_loop_entries_prefix b v cs (build_step encode decode b v st c)) as [suf ->].
  destruct (build_step_cases b v st c) as [[s' [_ [_ ->]]] | [[s' [_ ->]] | [Hr _]]];
    [| | congruence]; simpl;
    eexists; (split; [apply in_or_app; left; apply in_or_app; right; left; reflexivity |]);
    repeat split.
Qed.

End AssemblerProofs.

(** C2: every required component gets an audit entry with [included = true],
    whatever the token budget (a total of 1 included): a required component
    that does not fit is truncated, never dropped, and [buildPrompt] is a
    total function. *)
Theorem buildPrompt_required_included {token} (encode : string -> list token)
  (decode : list token -> string) (pm : PromptManager) (c : PromptComponent) :
  In c (pm_components pm) -> is_required c = true ->
  exists e, In e (components (buildPrompt encode decode pm)) /\
            entry_id e = id c /\ entry_type e = type c /\ included e = true.
Proof.
  intros Hin Hreq. unfold buildPrompt, buildState. simpl.
  apply build_loop_required; [| exact Hreq].
  apply (Permutation_in c (sort_desc_perm prio (pm_components pm))). exact Hin.
Qed.

Definition big_required : PromptComponent :=
  mkComponent "rules" instruction "Write a long story about a dragon." (Some true) None (Some 5).
Definition tiny_budget_pm : PromptManager :=
  mkPM gpt_4o (mkBudget 1 None None None None None None None) [comp_x1; big_required] ∅.

Lemma buildPrompt_required_included_witness :
  In big_required (pm_components tiny_budget_pm) /\ is_required big_required = true /\
  exists e, In e (components (buildPrompt char_encode char_decode tiny_budget_pm)) /\
            entry_id e = id big_required /\ entry_type e = type big_required /\
            included e = true.
Proof.
  split; [simpl; right; left; reflexivity |]. split; [reflexivity |].
  apply buildPrompt_required_included; [simpl; right; left; reflexivity | reflexivity].
Defined.

Definition is_system_entry (e : ComponentEntry) : bool :=
  included e && is_system (entry_type e).
Definition is_user_entry (e : ComponentEntry) : bool :=
  included e && negb (is_system (entry_type e)).

(** the tokens recorded for the included entries selected by [p] *)
Definition entry_tokens (p : ComponentEntry -> bool) (es : list ComponentEntry) : Z :=
  sum_Z (map tokens (List.filter p es)).

Lemma sum_Z_nonneg {token} (encode : string -> list token) (cs : list PromptComponent) :
  0 <= sum_Z (map (fun c => countTokens encode (content c)) cs).
Proof.
  induction cs as [|c cs IH]; simpl; [lia |].
  pose proof (countTokens_nonneg encode (content c)). lia.
Qed.

Section AccountingProofs.

Context {token : Type}.
Variable encode : string -> list token.
Variable decode : list token -> string.

Definition content_tokens (cs : list PromptComponent) : Z :=
  sum_Z (map (fun c => countTokens encode (content c)) cs).

(** the running counts are the token counts of the collected contents
    and the tokens of the included audit entries *)
Definition accounting (st : BuildState) : Prop :=
  systemTokenCount st = content_tokens (systemComponents st) /\
  userTokenCount st = content_tokens (userComponents st) /\
  systemTokenCount st = entry_tokens is_system_entry (includedComponents st) /\
  userTokenCount st = entry_tokens is_user_entry (includedComponents st).

Lemma accounting_step (b : TokenBudget) (v : gmap string string) st c :
  accounting st -> accounting (build_step encode decode b v st c).
Proof.
  intros [H1 [H2 [H3 H4]]].
  unfold accounting, content_tokens, entry_tokens in *.
  destruct (build_step_cases encode decode b v st c)
    as [[s' [Hs [_ ->]]] | [[s' [Hs ->]] | [_ ->]]]; simpl;
    rewrite ?map_app, ?List.filter_app, ?map_app, ?sum_Z_app; simpl;
    unfold is_system_entry, is_user_entry; simpl; rewrite ?Hs; simpl;
    rewrite ?app_nil_r, ?sum_Z_app; simpl;
    unfold is_system_entry, is_user_entry in *; lia.
Qed.

Lemma accounting_loop (b : TokenBudget) (v : gmap string string) cs st :
  accounting st -> accounting (build_loop encode decode b v cs st).
Proof.
  revert st. induction cs as [|c cs IH]; intros st H; [exact H |].
  simpl. apply IH. apply accounting_step. exact H.
Qed.

Lemma accounting_init : accounting init_state.
Proof. repeat split. Qed.

Lemma accounting_buildState (pm : PromptManager) : accounting (buildState encode decode pm).
Proof. apply accounting_loop, accounting_init. Qed.

(** with no required system component, the running system count stays
    within a positive [budget.system] *)
Lemma system_bound_loop (b : TokenBudget) (v : gmap string string) (m : Z) cs st :
  budget_system b = Some m -> 0 < m ->
  (forall c, In c cs -> is_system (type c) = true -> is_required c = false) ->
  systemTokenCount st <= m ->
  systemTokenCount (build_loop encode decode b v cs st) <= m.
Proof.
  intros Hb Hm. revert st. induction cs as [|c cs IH]; intros st Hreq Hst; [exact Hst |].
  simpl. apply IH; [intros c' Hin; apply Hreq; right; exact Hin |].
  destruct (build_step_cases encode decode b v st c)
    as [[s' [Hs [Hle ->]]] | [[s' [Hs ->]] | [_ ->]]]; simpl; [| exact Hst | exact Hst].
  specialize (Hle (Hreq c (or_introl eq_refl) Hs)).
  destruct (type c); try discriminate.
  unfold maxTypeTokens_of, budget_for_type in Hle. rewrite Hb in Hle.
  destruct (Z.eqb_spec m 0); [lia |]. simpl in Hle. apply Z.leb_le in Hle. exact Hle.
Qed.

(** the loop reads the budget only through [total], [system] and [reserved] *)
Lemma build_step_budget_irrelevant (b b' : TokenBudget) (v : gmap string string) st c :
  total b' = total b -> budget_system b' = budget_system b -> reserved b' = reserved b ->
  build_step encode decode b' v st c = build_step encode decode b v st c.
Proof.
  intros Ht Hs Hr. unfold build_step, reserved_or_0.
  rewrite Ht, Hr.
  destruct (type c); simpl; try reflexivity.
  unfold maxTypeTokens_of, budget_for_type. rewrite Hs. reflexivity.
Qed.

Lemma build_loop_budget_irrelevant (b b' : TokenBudget) (v : gmap string string) cs st :
  total b' = total b -> budget_system b' = budget_system b -> reserved b' = reserved b ->
  build_loop encode decode b' v cs st = build_loop encode decode b v cs st.
Proof.
  intros Ht Hs Hr. revert st. induction cs as [|c cs IH]; intros st; [reflexivity |].
  simpl. rewrite (build_step_budget_irrelevant b b' v st c Ht Hs Hr). apply IH.
Qed.

End AccountingProofs.

(** C3 (amended): [totalTokens = systemTokens + userTokens]; both counts are
    non-negative; [systemTokens] ([userTokens]) is the sum of the
    tokenizer's counts of the final contents of the included system
    (non-system) components, which [systemPrompt] ([userPrompt]) joins
    with blank lines, and equals the sum of the tokens of the included
    audit entries of that kind.  The separators are not counted. *)
Theorem buildPrompt_token_accounting {token} (encode : string -> list token)
  (decode : list token -> string) (pm : PromptManager) :
  let bp := buildPrompt encode decode pm in
  let st := buildState encode decode pm in
  totalTokens bp = systemTokens bp + userTokens bp /\
  0 <= systemTokens bp /\ 0 <= userTokens bp /\
  systemPrompt bp = join paragraph_sep (map content (systemComponents st)) /\
  userPrompt bp = join paragraph_sep (map content (userComponents st)) /\
  systemTokens bp = sum_Z (map (fun c => countTokens encode (content c)) (systemComponents st)) /\
  userTokens bp = sum_Z (map (fun c => countTokens encode (content c)) (userComponents st)) /\
  systemTokens bp = entry_tokens is_system_entry (components bp) /\
  userTokens bp = entry_tokens is_user_entry (components bp).
Proof.
  cbv zeta. unfold buildPrompt. simpl.
  destruct (accounting_buildState encode decode pm) as [H1 [H2 [H3 H4]]].
  unfold content_tokens in *.
  repeat split; try reflexivity; try assumption;
    [rewrite H1 | rewrite H2]; apply sum_Z_nonneg.
Qed.

Definition comp_sa : PromptComponent := mkComponent "sa" system "a" None None None.
Definition comp_sb : PromptComponent := mkComponent "sb" system "b" None None None.
Definition two_system_pm : PromptManager :=
  mkPM gpt_4o (DEFAULT_TOKEN_BUDGETS gpt_4o) [comp_sa; comp_sb] ∅.

(** C3 (counterexample): two one-character system components give
    [systemPrompt = "a\n\nb"], four tokens for a character-level
    tokenizer, while [systemTokens = 2]. *)
Lemma buildPrompt_separator_uncounted :
  systemTokens (buildPrompt char_encode char_decode two_system_pm) = 2 /\
  countTokens char_encode (systemPrompt (buildPrompt char_encode char_decode two_system_pm)) = 4.
Proof. split; vm_compute; reflexivity. Qed.

(** C4 (amended): of the six per-type sub-budgets only [system] is read:
    changing the [instruction], [context], [example], [user_input] or
    [formatting] budget never changes the result, since non-system
    components are bounded only by the shared pool
    [total - systemTokens - reserved].  When [budget.system] is a positive
    number and no system component is required, the tokens of the
    included system components add up to at most [budget.system]. *)
Theorem buildPrompt_type_budgets {token} (encode : string -> list token)
  (decode : list token -> string) (pm : PromptManager) :
  (forall b' : TokenBudget,
     total b' = total (pm_tokenBudget pm) ->
     budget_system b' = budget_system (pm_tokenBudget pm) ->
     reserved b' = reserved (pm_tokenBudget pm) ->
     buildPrompt encode decode (mkPM (pm_model pm) b' (pm_components pm) (pm_templateVariables pm))
     = buildPrompt encode decode pm) /\
  (forall m : Z,
     budget_system (pm_tokenBudget pm) = Some m -> 0 < m ->
     (forall c, In c (pm_components pm) -> is_system (type c) = true -> is_required c = false) ->
     entry_tokens is_system_entry (components (buildPrompt encode decode pm)) <= m).
Proof.
  split.
  - intros b' Ht Hs Hr. unfold buildPrompt, buildState. simpl.
    rewrite (build_loop_budget_irrelevant encode decode (pm_tokenBudget pm) b'
               (pm_templateVariables pm) _ init_state Ht Hs Hr).
    reflexivity.
  - intros m Hb Hm Hreq.
    destruct (accounting_buildState encode decode pm) as [_ [_ [H3 _]]].
    unfold buildPrompt. simpl. rewrite <- H3.
    unfold buildState. apply system_bound_loop; [exact Hb | exact Hm | | simpl; lia].
    intros c Hin. apply Hreq.
    apply (Permutation_in c (Permutation_sym (sort_desc_perm prio (pm_components pm)))).
    exact Hin.
Qed.

Definition comp_instr : PromptComponent := mkComponent "i" instruction "hello" None None None.
Definition instr_budget : TokenBudget :=
  mkBudget 100 (Some 3) (Some 1) None None None None (Some 0).
Definition instr_pm : PromptManager := mkPM gpt_4o instr_budget [comp_sa; comp_instr] ∅.

(** C4 (counterexample): with [budget.instruction = 1], an instruction
    component of 5 tokens is included whole. *)
Lemma instruction_budget_ignored :
  components (buildPrompt char_encode char_decode instr_pm) =
    [mkEntry "sa" system 1 true; mkEntry "i" instruction 5 true] /\
  budget_instruction instr_budget = Some 1.
Proof. split; vm_compute; reflexivity. Qed.

Lemma buildPrompt_type_budgets_witness :
  buildPrompt char_encode char_decode
    (mkPM gpt_4o (mkBudget 100 (Some 3) None (Some 7) None None None (Some 0))
          [comp_sa; comp_instr] ∅)
  = buildPrompt char_encode char_decode instr_pm /\
  entry_tokens is_system_entry (components (buildPrompt char_encode char_decode instr_pm)) <= 3.
Proof.
  destruct (buildPrompt_type_budgets char_encode char_decode instr_pm) as [H1 H2].
  split.
  - apply (H1 (mkBudget 100 (Some 3) None (Some 7) None None None (Some 0)));
      reflexivity.
  - apply H2; [reflexivity | lia |].
    intros c [<- | [<- | []]]; [reflexivity | discriminate].
Defined.

(* ------------------------------------------------------------------ *)
(** ** Illustration paragraphs *)

Lemma set_values_acc_nodup (l acc : list Z) :
  NoDup acc ->
  NoDup (fold_left (fun acc x => if existsb (Z.eqb x) acc then acc else (acc ++ [x])%list) l acc).
Proof.
  revert acc. induction l as [|x l IH]; intros acc Hnd; simpl; [exact Hnd |].
  apply IH. destruct (existsb (Z.eqb x) acc) eqn:Hex; [exact Hnd |].
  apply NoDup_app. split; [exact Hnd |]. split; [| apply NoDup_singleton].
  intros y Hy Hyx. apply list_elem_of_singleton in Hyx. subst y.
  apply list_elem_of_In in Hy.
  assert (Htrue : existsb (Z.eqb x) acc = true)
    by (apply existsb_exists; exists x; split; [exact Hy | apply Z.eqb_refl]).
  congruence.
Qed.

Lemma set_values_acc_length (l acc : list Z) :
  (length (fold_left (fun acc x => if existsb (Z.eqb x) acc then acc else (acc ++ [x])%list) l acc)
   <= length acc + length l)%nat.
Proof.
  revert acc. induction l as [|x l IH]; intros acc; simpl; [lia |].
  destruct (existsb (Z.eqb x) acc).
  - specialize (IH acc). lia.
  - specialize (IH (acc ++ [x])%list). rewrite length_app in IH. simpl in IH. lia.
Qed.

Lemma set_values_nodup (l : list Z) : NoDup (set_values l).
Proof. apply set_values_acc_nodup. constructor. Qed.

Lemma set_values_length (l : list Z) : (length (set_values l) <= length l)%nat.
Proof. pose proof (set_values_acc_length l []). simpl in H. exact H. Qed.

Lemma insert_asc_perm (x : Z) (l : list Z) : Permutation (x :: l) (insert_asc x l).
Proof.
  induction l as [|y l IH]; simpl; [reflexivity |].
  destruct (y <? x); [| reflexivity].
  eapply perm_trans; [apply perm_swap |]. constructor. exact IH.
Qed.

Lemma sort_asc_perm (l : list Z) : Permutation l (sort_asc l).
Proof.
  induction l as [|x l IH]; simpl; [reflexivity |].
  eapply perm_trans; [constructor; exact IH | apply insert_asc_perm].
Qed.

Lemma insert_asc_sorted (x : Z) (l : list Z) :
  Sorted Z.le l -> Sorted Z.le (insert_asc x l).
Proof.
  induction l as [|y l IH]; simpl; intros H; [repeat constructor |].
  destruct (Z.ltb_spec y x).
  - apply Sorted_inv in H as [H1 H2]. constructor; [apply IH; exact H1 |].
    destruct l as [|z l]; simpl; [constructor; lia |].
    apply HdRel_inv in H2. destruct (z <? x); constructor; lia.
  - constructor; [exact H | constructor; lia].
Qed.

Lemma sort_asc_sorted (l : list Z) : Sorted Z.le (sort_asc l).
Proof. induction l; simpl; [constructor | apply insert_asc_sorted; assumption]. Qed.

Lemma sorted_le_nodup_lt (l : list Z) : Sorted Z.le l -> NoDup l -> Sorted Z.lt l.
Proof.
  induction l as [|x l IH]; intros Hs Hnd; [constructor |].
  apply Sorted_inv in Hs as [Hs Hhd]. apply NoDup_cons in Hnd as [Hnotin Hnd].
  constructor; [apply IH; assumption |].
  destruct l as [|y l]; constructor. apply HdRel_inv in Hhd.
  assert (x <> y) by (intros ->; apply Hnotin; constructor). lia.
Qed.

(** the candidate list before deduplication has at most four entries *)
Lemma candidates_length (sortedElements : list NarrativeElement) (chars : list CharacterDescription) :
  let recommendedParagraphs := map paragraphIndex (firstn 4 sortedElements) in
  (length
    (match chars with
     | c0 :: _ =>
       if existsb (Z.eqb (firstAppearance c0)) recommendedParagraphs
       then recommendedParagraphs
       else if (length recommendedParagraphs <? 4)%nat
       then (recommendedParagraphs ++ [firstAppearance c0])%list
       else match last sortedElements with
            | None => recommendedParagraphs
            | Some least =>
              if (importance least <? 8)%Z then
                match index_of_Z recommendedParagraphs (paragraphIndex least) with
                | Some k => <[k := firstAppearance c0]> recommendedParagraphs
                | None => recommendedParagraphs
                end
              else recommendedParagraphs
            end
     | [] => recommendedParagraphs
     end) <= 4)%nat.
Proof.
  cbv zeta.
  assert (H4 : (length (map paragraphIndex (firstn 4 sortedElements)) <= 4)%nat)
    by (rewrite length_map, length_firstn; lia).
  destruct chars as [|c0 chars]; [exact H4 |].
  destruct (existsb _ _); [exact H4 |].
  destruct (Nat.ltb_spec (length (map paragraphIndex (firstn 4 sortedElements))) 4).
  - rewrite length_app. simpl. lia.
  - destruct (last sortedElements); [| exact H4].
    destruct (importance n <? 8); [| exact H4].
    destruct (index_of_Z _ _); [| exact H4].
    rewrite length_insert. exact H4.
Qed.

Lemma selectOptimalImageParagraphs_invariants (ps : list string)
  (elems : list NarrativeElement) (chars : list CharacterDescription) :
  let r := selectOptimalImageParagraphs ps elems chars in
  (length r <= 4)%nat /\ NoDup r /\ Sorted Z.lt r.
Proof.
  cbv zeta. unfold selectOptimalImageParagraphs. cbv zeta.
  pose proof (candidates_length (sort_desc importance elems) chars) as Hlen.
  cbv zeta in Hlen.
  match goal with |- context [sort_asc (set_values ?l)] => set (cands := l) in * end.
  pose proof (sort_asc_perm (set_values cands)) as Hperm.
  assert (Hnd : NoDup (sort_asc (set_values cands)))
    by (rewrite <- Hperm; apply set_values_nodup).
  split; [| split; [exact Hnd |]].
  - rewrite <- (Permutation_length Hperm). pose proof (set_values_length cands). lia.
  - apply sorted_le_nodup_lt; [apply sort_asc_sorted | exact Hnd].
Qed.

(** C6: for every story, [recommendedImageParagraphs] has at most four
    entries, no duplicates, and is sorted in strictly ascending order. *)
Theorem recommendedImageParagraphs_invariants (ttl : string) (content : list string)
  (thm : option string) :
  let r := recommendedImageParagraphs (analyzeStoryContent ttl content thm) in
  (length r <= 4)%nat /\ NoDup r /\ Sorted Z.lt r.
Proof. apply selectOptimalImageParagraphs_invariants. Qed.

(* ------------------------------------------------------------------ *)
(** ** Narrative elements *)

Lemma keyword_hits_nonneg (text : string) (kws : list string) : 0 <= keyword_hits text kws.
Proof. unfold keyword_hits. lia. Qed.

Lemma count_char_nonneg (c : ascii) (s : string) : 0 <= count_char c s.
Proof. induction s; simpl; [lia | destruct (Ascii.eqb c a); lia]. Qed.

Lemma climax_score_nonneg (ps : list string) (i : Z) : 0 <= climax_score ps i.
Proof.
  unfold climax_score. pose proof (keyword_hits_nonneg (to_lower (par ps i)) climaxIndicators).
  pose proof (count_char_nonneg "!"%char (to_lower (par ps i))). lia.
Qed.

Lemma best_index_unfold (score : Z -> Z) (idxs : list Z) :
  best_index score idxs = fst (fold_left (scan_step score) idxs (-1, 0)).
Proof. reflexivity. Qed.

(** the scan over [lo, lo + n): either nothing scores and the result is
    -1, or the result is the first index of the highest, positive score *)
Lemma scan_spec (score : Z -> Z) (lo : Z) (n : nat) :
  (forall i, 0 <= score i) -> 0 <= lo ->
  let '(best, highest) :=
    fold_left (scan_step score) (map (fun k => lo + Z.of_nat k) (seq 0 n)) (-1, 0) in
  (best = -1 /\ highest = 0 /\ forall i, lo <= i < lo + Z.of_nat n -> score i = 0) \/
  (lo <= best < lo + Z.of_nat n /\ highest = score best /\ 0 < highest /\
   (forall i, lo <= i < lo + Z.of_nat n -> score i <= highest) /\
   (forall i, lo <= i < best -> score i < highest)).
Proof.
  intros Hnn Hlo. induction n as [|n IH].
  - simpl. left. repeat split; intros; lia.
  - rewrite seq_S, map_app, fold_left_app. simpl.
    destruct (fold_left (scan_step score) (map (fun k => lo + Z.of_nat k) (seq 0 n)) (-1, 0))
      as [best highest].
    unfold scan_step. destruct (Z.ltb_spec highest (score (lo + Z.of_nat n))) as [Hlt | Hge].
    + right. destruct IH as [[-> [-> Hz]] | [Hb [Hh [Hpos [Hmax Hfirst]]]]].
      * repeat split; try lia.
        -- intros i Hi. destruct (Z.eq_dec i (lo + Z.of_nat n)) as [-> | Hne]; [lia |].
           rewrite (Hz i) by lia. lia.
        -- intros i Hi. rewrite (Hz i) by lia. lia.
      * repeat split; try lia.
        -- intros i Hi. destruct (Z.eq_dec i (lo + Z.of_nat n)) as [-> | Hne]; [lia |].
           pose proof (Hmax i ltac:(lia)). lia.
        -- intros i Hi. pose proof (Hmax i ltac:(lia)). lia.
    + destruct IH as [[-> [-> Hz]] | [Hb [Hh [Hpos [Hmax Hfirst]]]]].
      * left. repeat split; try lia. intros i Hi.
        destruct (Z.eq_dec i (lo + Z.of_nat n)) as [-> | Hne].
        -- pose proof (Hnn (lo + Z.of_nat n)). lia.
        -- apply Hz. lia.
      * right. repeat split; try lia; [| exact Hfirst].
        intros i Hi. destruct (Z.eq_dec i (lo + Z.of_nat n)) as [-> | Hne]; [lia |].
        apply Hmax. lia.
Qed.

(** [findClimaxParagraph] on the range [identifyNarrativeElements] gives it:
    the indices visited are [floor(0.6 N) .. min(floor(0.9 N), N - 1)],
    both ends included *)
Lemma findClimax_spec (ps : list string) :
  3 < plen ps ->
  let lo := plen ps * 3 / 5 in
  let hi := Z.min (plen ps * 9 / 10) (plen ps - 1) in
  let c := findClimaxParagraph ps (plen ps * 3 / 5) (plen ps * 9 / 10) in
  ((exists i, lo <= i <= hi /\ 0 < climax_score ps i) ->
     lo <= c <= hi /\ 0 < climax_score ps c /\
     (forall j, lo <= j <= hi -> climax_score ps j <= climax_score ps c) /\
     (forall j, lo <= j < c -> climax_score ps j < climax_score ps c)) /\
  ((forall i, lo <= i <= hi -> climax_score ps i = 0) ->
     c = Z.min (plen ps * 3 / 4) (plen ps - 1)) /\
  0 <= c.
Proof.
  intros HN. cbv zeta.
  set (N := plen ps) in *.
  assert (Hlo : 0 <= N * 3 / 5) by (apply Z.div_pos; lia).
  assert (Hlohi : N * 3 / 5 <= Z.min (N * 9 / 10) (N - 1)).
  { apply Z.min_glb.
    - apply Z.div_le_lower_bound; [lia |].
      pose proof (Z.mul_div_le (N * 3) 5 ltac:(lia)). lia.
    - apply Z.div_le_upper_bound; lia. }
  assert (Hn : N * 3 / 5 + Z.of_nat (Z.to_nat (Z.min (N * 9 / 10 + 1) N - N * 3 / 5))
                 = Z.min (N * 9 / 10) (N - 1) + 1) by lia.
  unfold findClimaxParagraph, loop_indices. fold N.
  rewrite best_index_unfold.
  pose proof (scan_spec (climax_score ps) (N * 3 / 5)
                (Z.to_nat (Z.min (N * 9 / 10 + 1) N - N * 3 / 5))
                (climax_score_nonneg ps) Hlo) as Hs.
  destruct (fold_left _ _ _) as [best highest]. simpl.
  rewrite Hn in Hs.
  destruct Hs as [[-> [-> Hz]] | [Hb [Hh [Hpos [Hmax Hfirst]]]]].
  - simpl. split; [| split].
    + intros [i [Hi Hsc]]. rewrite (Hz i) in Hsc by lia. lia.
    + intros _. reflexivity.
    + pose proof (Z.div_pos (N * 3) 4 ltac:(lia) ltac:(lia)). lia.
  - destruct (Z.eqb_spec best (-1)); [lia |]. subst highest.
    split; [| split].
    + intros _. repeat split; try lia.
      * intros j Hj. apply Hmax. lia.
      * exact Hfirst.
    + intros Hz. rewrite (Hz best) in Hpos by lia. lia.
    + lia.
Qed.

Definition is_climax_element (e : NarrativeElement) : bool :=
  match element_type e with climax => true | _ => false end.

Lemma element_at_fields (ps : list string) (i : Z) (t : NarrativeType) (imp : Z) :
  paragraphIndex (element_at ps i t imp) = i /\ element_type (element_at ps i t imp) = t /\
  importance (element_at ps i t imp) = imp.
Proof. repeat split. Qed.

Lemma filter_element_at (f : NarrativeElement -> bool) (ps : list string) i t imp :
  List.filter f [element_at ps i t imp] = if f (element_at ps i t imp) then [element_at ps i t imp] else [].
Proof. reflexivity. Qed.

(** with more than three paragraphs there is exactly one climax element,
    at the index [findClimaxParagraph] returns *)
Lemma identify_climax (ps : list string) :
  3 < plen ps ->
  List.filter is_climax_element (identifyNarrativeElements ps) =
  [element_at ps (findClimaxParagraph ps (plen ps * 3 / 5) (plen ps * 9 / 10)) climax 10].
Proof.
  intros HN.
  destruct (findClimax_spec ps HN) as [_ [_ Hc]]. cbv zeta in Hc.
  unfold identifyNarrativeElements. cbv zeta.
  replace (0 <? plen ps) with true by (symmetry; apply Z.ltb_lt; lia).
  replace (2 <? plen ps) with true by (symmetry; apply Z.ltb_lt; lia).
  replace (3 <? plen ps) with true by (symmetry; apply Z.ltb_lt; lia).
  replace (1 <? plen ps) with true by (symmetry; apply Z.ltb_lt; lia).
  replace (findClimaxParagraph ps (plen ps * 3 / 5) (plen ps * 9 / 10) =? -1) with false
    by (symmetry; apply Z.eqb_neq; lia).
  rewrite !List.filter_app, !filter_element_at.
  destruct (negb (findActionParagraph ps 1 (plen ps * 3 / 5) =? -1));
    rewrite ?filter_element_at; reflexivity.
Qed.

Lemma identify_resolution (ps : list string) :
  1 < plen ps ->
  In (element_at ps (plen ps - 1) resolution 8) (identifyNarrativeElements ps).
Proof.
  intros HN. unfold identifyNarrativeElements. cbv zeta.
  replace (1 <? plen ps) with true by (symmetry; apply Z.ltb_lt; lia).
  rewrite !app_assoc. apply in_or_app. right. left. reflexivity.
Qed.

(** C7 (amended): for [N > 3] paragraphs there is exactly one climax element.
    Its search range is the closed interval
    [floor(0.6 N) .. min(floor(0.9 N), N - 1)]: when some paragraph of that
    range scores above 0 (indicator hits plus 2 per exclamation mark), the
    climax is the first paragraph of the range with the highest score;
    when none does, it is [min(floor(0.75 N), N - 1)]. *)
Theorem climax_closed_range (ps : list string) :
  3 < plen ps ->
  let lo := plen ps * 3 / 5 in
  let hi := Z.min (plen ps * 9 / 10) (plen ps - 1) in
  exists e, List.filter is_climax_element (identifyNarrativeElements ps) = [e] /\
    importance e = 10 /\
    ((exists i, lo <= i <= hi /\ 0 < climax_score ps i) ->
       lo <= paragraphIndex e <= hi /\ 0 < climax_score ps (paragraphIndex e) /\
       (forall j, lo <= j <= hi -> climax_score ps j <= climax_score ps (paragraphIndex e)) /\
       (forall j, lo <= j < paragraphIndex e -> climax_score ps j < climax_score ps (paragraphIndex e))) /\
    ((forall i, lo <= i <= hi -> climax_score ps i = 0) ->
       paragraphIndex e = Z.min (plen ps * 3 / 4) (plen ps - 1)).
Proof.
  intros HN. cbv zeta.
  destruct (findClimax_spec ps HN) as [Hpos [Hzero _]]. cbv zeta in Hpos, Hzero.
  eexists. split; [apply identify_climax; exact HN |].
  split; [reflexivity |]. split; [exact Hpos | exact Hzero].
Qed.

Definition ps_late_climax : list string :=
  ["x"; "x"; "x"; "x"; "x"; "x"; "finally"; "x"; "x"; "wow!"].

Lemma climax_theorem_witness :
  3 < plen ps_late_climax /\
  exists e, List.filter is_climax_element (identifyNarrativeElements ps_late_climax) = [e] /\
            importance e = 10 /\ paragraphIndex e = 9.
Proof.
  split; [reflexivity |].
  destruct (climax_closed_range ps_late_climax ltac:(reflexivity)) as [e [He [Hi [Hpos _]]]].
  exists e. split; [exact He | split; [exact Hi |]].
  rewrite identify_climax in He by reflexivity. injection He as <-. vm_compute. reflexivity.
Defined.

(** C7 (counterexample): in a 10-paragraph story where paragraph 6 scores 1
    and paragraph 9 scores 2, the climax is paragraph 9, outside the
    half-open range [6, 9) although paragraph 6 in it scores above 0. *)
Lemma climax_outside_half_open_range :
  map (fun e => (element_type e, paragraphIndex e)) (identifyNarrativeElements ps_late_climax) =
    [(introduction, 0); (action, 3); (climax, 9); (resolution, 9)] /\
  plen ps_late_climax * 9 / 10 = 9 /\
  climax_score ps_late_climax 6 = 1 /\ climax_score ps_late_climax 9 = 2.
Proof. vm_compute. repeat split. Qed.

(** C10: in a story of four paragraphs where paragraphs 2 and 3 carry no
    climax indicator and no exclamation mark, the climax falls back to
    index [min(floor(4 * 0.75), 3) = 3], the resolution index, and both
    elements are returned. *)
Theorem climax_resolution_same_index (ps : list string) :
  plen ps = 4 -> climax_score ps 2 = 0 -> climax_score ps 3 = 0 ->
  exists e1 e2, In e1 (identifyNarrativeElements ps) /\ In e2 (identifyNarrativeElements ps) /\
    e1 <> e2 /\ element_type e1 = climax /\ element_type e2 = resolution /\
    paragraphIndex e1 = 3 /\ paragraphIndex e2 = 3.
Proof.
  intros HN H2 H3.
  assert (HN3 : 3 < plen ps) by lia.
  destruct (findClimax_spec ps HN3) as [_ [Hzero _]]. cbv zeta in Hzero.
  rewrite HN in Hzero.
  change (4 * 3 / 5) with 2 in Hzero. change (4 * 9 / 10) with 3 in Hzero.
  change (Z.min (4 * 3 / 4) (4 - 1)) with 3 in Hzero.
  change (Z.min 3 (4 - 1)) with 3 in Hzero.
  assert (Hc : findClimaxParagraph ps (plen ps * 3 / 5) (plen ps * 9 / 10) = 3).
  { rewrite HN. apply Hzero. intros i Hi.
    assert (i = 2 \/ i = 3) as [-> | ->] by lia; assumption. }
  exists (element_at ps 3 climax 10), (element_at ps 3 resolution 8).
  split.
  - pose proof (identify_climax ps HN3) as Hf. rewrite Hc in Hf.
    apply (List.filter_In is_climax_element). rewrite Hf. left. reflexivity.
  - split; [replace 3 with (plen ps - 1) by lia; apply identify_resolution; lia |].
    split; [discriminate |]. repeat split.
Qed.

Definition ps_four : list string := ["Once there was a cat."; "It slept."; "Calm night."; "The end."].

Lemma climax_resolution_same_index_witness :
  plen ps_four = 4 /\ climax_score ps_four 2 = 0 /\ climax_score ps_four 3 = 0 /\
  exists e1 e2, In e1 (identifyNarrativeElements ps_four) /\ In e2 (identifyNarrativeElements ps_four) /\
    e1 <> e2 /\ element_type e1 = climax /\ element_type e2 = resolution /\
    paragraphIndex e1 = 3 /\ paragraphIndex e2 = 3.
Proof.
  split; [reflexivity |]. split; [vm_compute; reflexivity |]. split; [vm_compute; reflexivity |].
  apply climax_resolution_same_index; [reflexivity | vm_compute; reflexivity | vm_compute; reflexivity].
Defined.

(** ** Template variables set to the empty string *)

Lemma replace_placeholders_ext (f g : string -> string) (fuel : nat) (s : string) :
  (forall k, f k = g k) -> replace_placeholders f fuel s = replace_placeholders g fuel s.
Proof.
  intros Hfg. revert s. induction fuel as [| fuel IH]; intros s; [reflexivity |].
  destruct s as [| c1 s1]; [reflexivity |]. cbn [replace_placeholders].
  rewrite !IH. destruct (Ascii.eqb c1 lbrace); [| reflexivity].
  destruct s1 as [| c2 s2]; [reflexivity |].
  destruct (Ascii.eqb c2 lbrace); [| reflexivity].
  destruct (word_prefix s2) as [[| w0 w] [| c3 [| c4 rest]]]; try reflexivity.
  rewrite Hfg, IH. reflexivity.
Qed.

(** for a key that is not a member of [Object.prototype], the empty string
    and an unset variable are substituted alike *)
Lemma substitute_empty_ordinary (vars : gmap string string) (k key : string) :
  object_prototype_member k = None ->
  substitute (js_set vars k "") key = substitute (delete k vars) key.
Proof.
  intros Hk. unfold substitute, js_get.
  assert (Hproto : String.eqb k "__proto__" = false).
  { destruct (String.eqb_spec k "__proto__") as [-> | ]; [discriminate Hk | reflexivity]. }
  unfold js_set. rewrite Hproto. cbn [andb].
  destruct (String.eqb_spec key k) as [-> | Hne].
  - rewrite lookup_insert_eq, lookup_delete_eq. simpl. rewrite Hk. reflexivity.
  - rewrite lookup_insert_ne by congruence. rewrite lookup_delete_ne by congruence. reflexivity.
Qed.

Lemma substitute_spread_empty_ordinary (vars : gmap string string) (k key : string) :
  object_prototype_member k = None ->
  substitute (js_spread vars {[k := ""]}) key = substitute (delete k vars) key.
Proof.
  intros Hk. unfold substitute, js_get, js_spread.
  destruct (String.eqb_spec key k) as [-> | Hne].
  - rewrite lookup_union, lookup_singleton_eq, lookup_delete_eq. simpl. rewrite Hk.
    destruct (vars !! k); reflexivity.
  - rewrite lookup_union, lookup_singleton_ne by congruence.
    rewrite lookup_delete_ne by congruence. destruct (vars !! key); reflexivity.
Qed.

Section TemplateProofs.

Context {token : Type}.
Variable encode : string -> list token.
Variable decode : list token -> string.

Lemma build_loop_vars_ext (budget : TokenBudget) (v1 v2 : gmap string string)
  (cs : list PromptComponent) (st : BuildState) :
  (forall t, applyTemplateVariables v1 t = applyTemplateVariables v2 t) ->
  build_loop encode decode budget v1 cs st = build_loop encode decode budget v2 cs st.
Proof.
  intros Hv. unfold build_loop. revert st.
  induction cs as [| c cs IH]; intros st; [reflexivity |].
  cbn [fold_left].
  replace (build_step encode decode budget v1 st c) with (build_step encode decode budget v2 st c)
    by (unfold build_step; rewrite Hv; reflexivity).
  apply IH.
Qed.

Lemma buildPrompt_vars_ext (pm : PromptManager) (v1 v2 : gmap string string) :
  (forall key, substitute v1 key = substitute v2 key) ->
  buildPrompt encode decode (set_variables v1 pm) = buildPrompt encode decode (set_variables v2 pm).
Proof.
  intros Hv. unfold buildPrompt, buildState. cbn [pm_tokenBudget pm_templateVariables pm_components set_variables].
  rewrite (build_loop_vars_ext _ v1 v2); [reflexivity |].
  intros t. unfold applyTemplateVariables. apply replace_placeholders_ext. exact Hv.
Qed.

(** for an ordinary key (not a member of [Object.prototype]) setting the
    variable to the empty string, through either setter, builds the same
    prompt as leaving it unset *)
Lemma set_empty_variable_like_unset (pm : PromptManager) (k : string) :
  object_prototype_member k = None ->
  buildPrompt encode decode (snd (setTemplateVariable k "" pm)) =
    buildPrompt encode decode (set_variables (delete k (pm_templateVariables pm)) pm) /\
  buildPrompt encode decode (snd (setTemplateVariables {[k := ""]} pm)) =
    buildPrompt encode decode (set_variables (delete k (pm_templateVariables pm)) pm).
Proof.
  intros Hk. split.
  - apply buildPrompt_vars_ext. intros key. apply substitute_empty_ordinary. exact Hk.
  - apply buildPrompt_vars_ext. intros key. apply substitute_spread_empty_ordinary. exact Hk.
Qed.

End TemplateProofs.

Definition greeting_comp (k : string) : PromptComponent :=
  mkComponent "greeting" user_input ("Hello " ++ placeholder k) None None None.

Definition greeting_pm (k : string) : PromptManager := snd (addComponent (greeting_comp k) empty_pm).

Definition greeting_prompt (pm : PromptManager) : string :=
  userPrompt (buildPrompt char_encode char_decode pm).

(** C8 (code bug): the variables live in a plain object, so keys naming
    [Object.prototype] members are read through the prototype.
    After [setTemplateVariable("__proto__", "")] (the assignment hits the
    prototype setter and is ignored) the placeholder becomes
    [[object Object]] instead of staying verbatim; and for
    [constructor], setting the empty string leaves the placeholder while
    never setting it substitutes the [Object] constructor's source text. *)
Theorem empty_template_variable_prototype_keys :
  greeting_prompt (snd (setTemplateVariable "__proto__" "" (greeting_pm "__proto__"))) =
    "Hello [object Object]" /\
  greeting_prompt (snd (setTemplateVariable "constructor" "" (greeting_pm "constructor"))) =
    "Hello {{constructor}}" /\
  greeting_prompt (greeting_pm "constructor") =
    "Hello function Object() { [native code] }".
Proof. vm_compute. repeat split. Qed.

(* ================================================================== *)
(** * Further properties of the prompt manager *)

(** ** removeComponent *)

Lemma filter_keep_all {A} (f : A -> bool) (l : list A) :
  (forall x, In x l -> f x = true) -> List.filter f l = l.
Proof.
  induction l as [|x l IH]; intros H; simpl; [reflexivity |].
  rewrite (H x (or_introl eq_refl)), IH; [reflexivity |].
  intros y Hy. apply H. right. exact Hy.
Qed.

Lemma has_id_false_ne (cs : list PromptComponent) (i : string) :
  has_id cs i = false -> forall c, In c cs -> id c <> i.
Proof.
  intros H c Hin Heq. assert (Ht : has_id cs i = true) by (apply has_id_spec; eauto).
  congruence.
Qed.

(** [removeComponent(i)] never throws; afterwards no component has id [i],
    the components kept are exactly those with another id (in their
    order, as a filter), and the budget, model and variables are
    untouched; removing an id that is absent changes nothing. *)
Theorem removeComponent_removes (s : PromptManager) (i : string) :
  let s' := snd (removeComponent i s) in
  fst (removeComponent i s) = Ok tt /\
  has_id (pm_components s') i = false /\
  (forall c, In c (pm_components s') <-> In c (pm_components s) /\ id c <> i) /\
  pm_model s' = pm_model s /\ pm_tokenBudget s' = pm_tokenBudget s /\
  pm_templateVariables s' = pm_templateVariables s /\
  (has_id (pm_components s) i = false -> s' = s).
Proof.
  cbv zeta. unfold removeComponent, pm_bind, pm_get, pm_modify, set_components. cbn [fst snd].
  cbn [pm_components pm_model pm_tokenBudget pm_templateVariables].
  assert (Hin : forall c, In c (List.filter (fun c => negb (String.eqb (id c) i)) (pm_components s))
                  <-> In c (pm_components s) /\ id c <> i).
  { intros c. rewrite List.filter_In. rewrite negb_true_iff, String.eqb_neq. reflexivity. }
  split; [reflexivity |]. split.
  - destruct (has_id _ i) eqn:Hh; [| reflexivity].
    apply has_id_spec in Hh. destruct Hh as [c [Hc Hid]]. apply Hin in Hc. tauto.
  - split; [exact Hin |]. split; [reflexivity |]. split; [reflexivity |]. split; [reflexivity |].
    intros Hh. rewrite filter_keep_all.
    + destruct s; reflexivity.
    + intros c Hc. apply negb_true_iff, String.eqb_neq. exact (has_id_false_ne _ _ Hh c Hc).
Qed.

Lemma removeComponent_removes_witness :
  has_id (pm_components empty_pm) "x" = false /\
  snd (removeComponent "x" empty_pm) = empty_pm.
Proof.
  split; [reflexivity |].
  destruct (removeComponent_removes empty_pm "x") as [_ [_ [_ [_ [_ [_ H]]]]]].
  apply H. reflexivity.
Defined.

(** Adding a component with a fresh id and removing that id restores the
    manager exactly; and adding any component right after removing its
    id never throws. *)
Theorem add_then_remove_roundtrip (s : PromptManager) (c : PromptComponent) :
  has_id (pm_components s) (id c) = false ->
  snd (removeComponent (id c) (snd (addComponent c s))) = s /\
  fst (addComponent c (snd (removeComponent (id c) s))) = Ok tt.
Proof.
  intros Hf. split.
  - rewrite (addComponent_fresh s c Hf). cbn [snd].
    unfold removeComponent, pm_bind, pm_get, pm_modify, set_components. cbn [fst snd pm_components].
    rewrite List.filter_app. cbn [List.filter]. rewrite String.eqb_refl. cbn [negb].
    rewrite app_nil_r, filter_keep_all; [destruct s; reflexivity |].
    intros d Hd. apply negb_true_iff, String.eqb_neq. exact (has_id_false_ne _ _ Hf d Hd).
  - destruct (removeComponent_removes s (id c)) as [_ [Hh _]].
    rewrite (addComponent_fresh _ c Hh). reflexivity.
Qed.

Lemma add_then_remove_roundtrip_witness :
  has_id (pm_components empty_pm) (id comp_x1) = false /\
  snd (removeComponent (id comp_x1) (snd (addComponent comp_x1 empty_pm))) = empty_pm.
Proof.
  split; [reflexivity |]. apply (add_then_remove_roundtrip empty_pm comp_x1). reflexivity.
Defined.

(** ** Template-variable setters *)

(** Two [setTemplateVariables] calls act as one call with the merged map
    [{...a, ...b}]: a key of the later map overrides the earlier one. *)
Theorem setTemplateVariables_compose (s : PromptManager) (a b : gmap string string) :
  setTemplateVariables b (snd (setTemplateVariables a s)) =
  (Ok tt, snd (setTemplateVariables (js_spread a b) s)).
Proof.
  unfold setTemplateVariables, pm_bind, pm_get, pm_modify, set_variables, js_spread.
  cbn. rewrite (assoc_L (∪)). reflexivity.
Qed.

(** For every key but [__proto__], [setTemplateVariable(k, v)] is the same
    as [setTemplateVariables({[k]: v})]. *)
Theorem setTemplateVariable_as_setTemplateVariables (s : PromptManager) (k v : string) :
  k <> "__proto__" ->
  setTemplateVariable k v s = setTemplateVariables {[k := v]} s.
Proof.
  intros Hk. unfold setTemplateVariable, setTemplateVariables, pm_bind, pm_get, pm_modify,
    js_set, js_spread. cbn.
  apply String.eqb_neq in Hk. rewrite Hk. cbn [andb].
  rewrite insert_union_singleton_l. reflexivity.
Qed.

Lemma setTemplateVariable_as_setTemplateVariables_witness :
  "name" <> "__proto__" /\
  setTemplateVariable "name" "Sam" empty_pm = setTemplateVariables {["name" := "Sam"]} empty_pm.
Proof.
  split; [discriminate |]. apply setTemplateVariable_as_setTemplateVariables. discriminate.
Defined.

(** a variable name matched by [\w+] *)
Definition is_word (k : string) : bool := forallb is_word_char (list_ascii_of_string k).

Lemma word_prefix_app (k r : string) :
  is_word k = true ->
  match r with String c _ => is_word_char c = false | EmptyString => True end ->
  word_prefix (k ++ r) = (k, r).
Proof.
  intros Hk Hr. induction k as [| c k IH]; simpl.
  - destruct r as [| c r]; [reflexivity |]. simpl. rewrite Hr. reflexivity.
  - unfold is_word in Hk. simpl in Hk. apply andb_prop in Hk as [Hc Hk].
    rewrite Hc, IH by exact Hk. reflexivity.
Qed.

Lemma append_nil_r_string (s : string) : s ++ "" = s.
Proof.
  induction s as [| a s IH]; [reflexivity |].
  transitivity (String a (s ++ "")); [reflexivity | rewrite IH; reflexivity].
Qed.

Lemma replace_placeholder_single (f : string -> string) (k : string) (fuel : nat) :
  k <> EmptyString -> is_word k = true -> (0 < fuel)%nat ->
  replace_placeholders f fuel (placeholder k) = f k.
Proof.
  intros Hne Hk Hf. destruct fuel as [| fuel]; [lia |].
  unfold placeholder. cbn [replace_placeholders Ascii.eqb lbrace rbrace].
  change (Ascii.eqb "{" "{") with true. cbv iota.
  rewrite word_prefix_app; [| exact Hk | reflexivity].
  destruct k as [| w0 w]; [congruence |].
  change (Ascii.eqb "}" "}" && Ascii.eqb "}" "}") with true. cbv iota.
  destruct fuel; simpl; apply append_nil_r_string.
Qed.

(** After [setTemplateVariable(k, v)] with a non-empty value, for a
    variable name matched by [\w+] other than [__proto__], the
    placeholder [{{k}}] is replaced by [v]. *)
Theorem setTemplateVariable_substituted (s : PromptManager) (k v : string) :
  k <> EmptyString -> is_word k = true -> k <> "__proto__" -> v <> EmptyString ->
  applyTemplateVariables (pm_templateVariables (snd (setTemplateVariable k v s))) (placeholder k) = v.
Proof.
  intros Hne Hk Hp Hv. unfold applyTemplateVariables.
  rewrite replace_placeholder_single; [| exact Hne | exact Hk | unfold placeholder; simpl; lia].
  unfold setTemplateVariable, pm_bind, pm_get, pm_modify, set_variables. cbn.
  unfold substitute, js_get, js_set. apply String.eqb_neq in Hp. rewrite Hp. cbn [andb].
  rewrite lookup_insert_eq. destruct (String.eqb_spec v "") as [-> | _]; [congruence | reflexivity].
Qed.

Lemma setTemplateVariable_substituted_witness :
  applyTemplateVariables (pm_templateVariables (snd (setTemplateVariable "name" "Sam" empty_pm)))
    (placeholder "name") = "Sam".
Proof.
  apply setTemplateVariable_substituted;
    [discriminate | reflexivity | discriminate | discriminate].
Defined.

Lemma replace_placeholders_noop (f : string -> string) (fuel : nat) (s : string) :
  includes s "{{" = false -> replace_placeholders f fuel s = s.
Proof.
  revert s. induction fuel as [| fuel IH]; intros s Hs; [reflexivity |].
  destruct s as [| c1 s1]; [reflexivity |].
  cbn [includes] in Hs. apply orb_false_iff in Hs as [Hst Hs1].
  cbn [replace_placeholders]. rewrite (IH s1 Hs1).
  destruct (Ascii.eqb c1 lbrace) eqn:H1; [| reflexivity].
  destruct s1 as [| c2 s2]; [reflexivity |].
  destruct (Ascii.eqb c2 lbrace) eqn:H2; [| reflexivity].
  apply Ascii.eqb_eq in H1, H2. subst. discriminate Hst.
Qed.

(** A text with no [{{] is left unchanged by template substitution,
    whatever the variables. *)
Theorem applyTemplateVariables_no_placeholder (vars : gmap string string) (text : string) :
  includes text "{{" = false -> applyTemplateVariables vars text = text.
Proof. intros H. apply replace_placeholders_noop. exact H. Qed.

Lemma applyTemplateVariables_no_placeholder_witness :
  includes "Hi {name}" "{{" = false /\
  applyTemplateVariables (<["name" := "Sam"]> ∅) "Hi {name}" = "Hi {name}".
Proof. split; [reflexivity | apply applyTemplateVariables_no_placeholder; reflexivity]. Defined.

(** ** addComponents and createTemplate *)

Lemma has_id_map (cs : list PromptComponent) (i : string) :
  has_id cs i = true <-> In i (map id cs).
Proof.
  rewrite has_id_spec, in_map_iff. split; intros [c [H1 H2]]; exists c; tauto.
Qed.

(** With component ids distinct so far, [addComponents(cs)] succeeds exactly
    when the ids of the old and the new components are pairwise distinct,
    and then appends [cs] in order. *)
Theorem addComponents_success (s : PromptManager) (cs : list PromptComponent) :
  NoDup (map id (pm_components s)) ->
  (fst (addComponents cs s) = Ok tt <-> NoDup (map id (pm_components s ++ cs))) /\
  (NoDup (map id (pm_components s ++ cs)) ->
     addComponents cs s = (Ok tt, set_components (pm_components s ++ cs) s)).
Proof.
  revert s. induction cs as [| c cs IH]; intros s Hs.
  - rewrite app_nil_r, set_components_id. split; [split; auto | reflexivity].
  - destruct (has_id (pm_components s) (id c)) eqn:Hh.
    + destruct (addComponent_taken s c Hh) as [msg Hm].
      assert (Hnd : ~ NoDup (map id (pm_components s ++ c :: cs))).
      { intros Hnd. rewrite map_app, NoDup_app in Hnd. destruct Hnd as [_ [Hx _]].
        apply has_id_map in Hh. apply (Hx (id c)); [apply list_elem_of_In; exact Hh |].
        apply list_elem_of_In. left. reflexivity. }
      simpl. unfold pm_bind. rewrite Hm. split; [split; [discriminate | tauto] | tauto].
    + set (s' := set_components (pm_components s ++ [c])%list s).
      assert (Hs' : NoDup (map id (pm_components s'))).
      { unfold s'. simpl. rewrite map_app, NoDup_app. split; [exact Hs |].
        split; [| apply NoDup_singleton].
        intros x Hx Hy. apply list_elem_of_In in Hx. apply list_elem_of_In in Hy.
        destruct Hy as [<- | []]. apply has_id_map in Hx. congruence. }
      assert (Heq : (pm_components s' ++ cs = pm_components s ++ c :: cs)%list).
      { unfold s'. simpl. rewrite <- app_assoc. reflexivity. }
      destruct (IH s' Hs') as [Hiff Hok]. rewrite Heq in Hiff, Hok.
      simpl. unfold pm_bind. rewrite (addComponent_fresh s c Hh). fold s'.
      split; [exact Hiff |].
      intros Hnd. rewrite (Hok Hnd). unfold s'. rewrite set_components_twice. reflexivity.
Qed.

Lemma addComponents_success_witness :
  NoDup (map id (pm_components empty_pm)) /\
  addComponents [comp_a; comp_b] empty_pm = (Ok tt, set_components [comp_a; comp_b] empty_pm).
Proof.
  assert (H0 : NoDup (map id (pm_components empty_pm))) by constructor.
  split; [exact H0 |].
  apply (addComponents_success empty_pm [comp_a; comp_b] H0).
  simpl. repeat constructor; set_solver.
Defined.

(** [createTemplate(name, components).instantiate(model, variables)]
    throws exactly when two of the components share an id; otherwise it
    gives a manager with the model's default budget, the components in
    order and exactly the given variables. *)
Theorem instantiate_spec (name : string) (cs : list PromptComponent) (model : SupportedModel)
  (variables : gmap string string) :
  (NoDup (map id cs) ->
     instantiate (createTemplate name cs) model variables =
       Ok (mkPM model (DEFAULT_TOKEN_BUDGETS model) cs variables)) /\
  (~ NoDup (map id cs) -> exists msg, instantiate (createTemplate name cs) model variables = Err msg).
Proof.
  assert (H0 : NoDup (map id (pm_components (newPromptManager model None)))) by constructor.
  destruct (addComponents_success (newPromptManager model None) cs H0) as [Hiff Hok].
  cbn [pm_components newPromptManager app] in Hiff, Hok.
  unfold instantiate, createTemplate. cbn [template_components]. split.
  - intros Hnd. unfold pm_bind at 1. rewrite (Hok Hnd).
    unfold setTemplateVariables, pm_bind, pm_get, pm_modify, set_variables, js_spread. cbn.
    rewrite map_union_empty. reflexivity.
  - intros Hnd. unfold pm_bind at 1. idtac.
    destruct (addComponents cs _) as [[] s1] eqn:E.
    + exfalso. apply Hnd, Hiff. destruct a. reflexivity.
    + exists message. reflexivity.
Qed.

Lemma instantiate_spec_witness :
  instantiate (createTemplate "t" [comp_a; comp_b]) gpt_4 ∅ =
    Ok (mkPM gpt_4 (DEFAULT_TOKEN_BUDGETS gpt_4) [comp_a; comp_b] ∅) /\
  exists msg, instantiate (createTemplate "t" [comp_a; comp_a']) gpt_4 ∅ = Err msg.
Proof.
  split.
  - apply (instantiate_spec "t" [comp_a; comp_b] gpt_4 ∅). simpl. repeat constructor; set_solver.
  - apply (instantiate_spec "t" [comp_a; comp_a'] gpt_4 ∅). simpl. intros Hnd.
    apply NoDup_cons in Hnd as [Hn _]. apply Hn. set_solver.
Defined.

(** ** Processing order of buildPrompt *)

Section StableSort.

Context {A : Type}.
Variable key : A -> Z.

Definition desc_rel (a b : A) : Prop := key b <= key a.

Lemma insert_desc_sorted (c : A) (l : list A) :
  Sorted desc_rel l -> Sorted desc_rel (insert_desc key c l).
Proof.
  induction l as [| d l IH]; intros H; simpl; [repeat constructor |].
  destruct (Z.ltb_spec (key c) (key d)) as [Hlt | Hge].
  - apply Sorted_inv in H as [Hl Hd]. constructor; [apply IH; exact Hl |].
    destruct l as [| e l']; simpl.
    + constructor. unfold desc_rel. lia.
    + destruct (key c <? key e); constructor; [| unfold desc_rel; lia].
      apply HdRel_inv in Hd. exact Hd.
  - constructor; [exact H | constructor; unfold desc_rel; lia].
Qed.

Lemma sort_desc_sorted (l : list A) : Sorted desc_rel (sort_desc key l).
Proof.
  induction l as [| c l IH]; simpl; [constructor | apply insert_desc_sorted; exact IH].
Qed.

Lemma insert_desc_split (c : A) (l : list A) :
  exists l1 l2, l = (l1 ++ l2)%list /\ insert_desc key c l = (l1 ++ c :: l2)%list /\
                Forall (fun d => key c < key d) l1.
Proof.
  induction l as [| d l IH]; simpl.
  - exists [], []. repeat split. constructor.
  - destruct (Z.ltb_spec (key c) (key d)) as [Hlt | Hge].
    + destruct IH as [l1 [l2 [-> [-> Hf]]]]. exists (d :: l1), l2.
      repeat split. constructor; assumption.
    + exists [], (d :: l). repeat split. constructor.
Qed.

Lemma filter_insert_desc (c : A) (l : list A) (p : Z) :
  List.filter (fun x => key x =? p) (insert_desc key c l) =
  List.filter (fun x => key x =? p) (c :: l).
Proof.
  destruct (insert_desc_split c l) as [l1 [l2 [-> [-> Hf]]]].
  rewrite !List.filter_app. cbn [List.filter].
  destruct (Z.eqb_spec (key c) p) as [Hp | Hp].
  - assert (H1 : List.filter (fun x => key x =? p) l1 = []).
    { induction Hf as [| d l1 Hd Hf IHf]; simpl; [reflexivity |].
      destruct (Z.eqb_spec (key d) p); [lia | exact IHf]. }
    rewrite ?List.filter_app, H1. reflexivity.
  - rewrite ?List.filter_app. reflexivity.
Qed.

(** the insertion sort is a stable sort by descending key *)
Lemma sort_desc_stable (l : list A) (p : Z) :
  List.filter (fun x => key x =? p) (sort_desc key l) = List.filter (fun x => key x =? p) l.
Proof.
  induction l as [| c l IH]; simpl; [reflexivity |].
  rewrite filter_insert_desc. cbn [List.filter]. rewrite IH. reflexivity.
Qed.

End StableSort.

Section OrderProofs.

Context {token : Type}.
Variable encode : string -> list token.
Variable decode : list token -> string.

Lemma build_loop_entries_map (b : TokenBudget) (v : gmap string string) cs st :
  map (fun e => (entry_id e, entry_type e)) (includedComponents (build_loop encode decode b v cs st)) =
  (map (fun e => (entry_id e, entry_type e)) (includedComponents st) ++
   map (fun c => (id c, type c)) cs)%list.
Proof.
  revert st. induction cs as [| c cs IH]; intros st.
  - rewrite app_nil_r. reflexivity.
  - unfold build_loop in *. cbn [fold_left]. rewrite IH.
    destruct (build_step_cases encode decode b v st c) as [[s' [_ [_ ->]]] | [[s' [_ ->]] | [_ ->]]];
      cbn [includedComponents]; rewrite map_app, <- app_assoc; reflexivity.
Qed.

End OrderProofs.

(** [buildPrompt()] records every component exactly once in its audit
    list, in the order it processes them: by descending priority (an unset
    priority counts as 0), components of equal priority in the order they
    were added. *)
Theorem buildPrompt_processing_order {token} (encode : string -> list token)
  (decode : list token -> string) (pm : PromptManager) :
  map (fun e => (entry_id e, entry_type e)) (components (buildPrompt encode decode pm)) =
    map (fun c => (id c, type c)) (sort_by_priority (pm_components pm)) /\
  Permutation (pm_components pm) (sort_by_priority (pm_components pm)) /\
  Sorted (fun a b => prio b <= prio a) (sort_by_priority (pm_components pm)) /\
  (forall p, List.filter (fun c => prio c =? p) (sort_by_priority (pm_components pm)) =
             List.filter (fun c => prio c =? p) (pm_components pm)).
Proof.
  split; [| split; [| split]].
  - unfold buildPrompt, buildState. cbn [components].
    rewrite build_loop_entries_map. reflexivity.
  - apply sort_desc_perm.
  - apply (sort_desc_sorted prio).
  - intros p. apply (sort_desc_stable prio).
Qed.

(** ** Budget behaviour of buildPrompt *)

Lemma perm_filter {A} (f : A -> bool) (l l' : list A) :
  Permutation l l' -> Permutation (List.filter f l) (List.filter f l').
Proof.
  induction 1 as [| x l l' _ IH | x y l | l l' l'' _ IH1 _ IH2]; simpl.
  - constructor.
  - destruct (f x); [constructor |]; exact IH.
  - destruct (f x), (f y); first [apply perm_swap | reflexivity].
  - eapply perm_trans; eassumption.
Qed.

Lemma sum_Z_perm (l l' : list Z) : Permutation l l' -> sum_Z l = sum_Z l'.
Proof.
  induction 1; simpl; lia.
Qed.

Lemma sum_Z_cons (x : Z) (l : list Z) : sum_Z (x :: l) = x + sum_Z l.
Proof. reflexivity. Qed.

Lemma le_limit_mono (x y : Z) (lim : option Z) :
  le_limit x lim = true -> y <= x -> le_limit y lim = true.
Proof. destruct lim; simpl; [rewrite !Z.leb_le; lia | reflexivity]. Qed.

Section FitProofs.

Context {token : Type}.
Variable encode : string -> list token.
Variable decode : list token -> string.

(** token count of a component after substitution *)
Definition proc_tokens (v : gmap string string) (c : PromptComponent) : Z :=
  countTokens encode (applyTemplateVariables v (content c)).

Definition sys_sum (v : gmap string string) (cs : list PromptComponent) : Z :=
  sum_Z (map (proc_tokens v) (List.filter (fun c => is_system (type c)) cs)).

Definition usr_sum (v : gmap string string) (cs : list PromptComponent) : Z :=
  sum_Z (map (proc_tokens v) (List.filter (fun c => negb (is_system (type c))) cs)).

Lemma sum_proc_nonneg (v : gmap string string) (cs : list PromptComponent) :
  0 <= sum_Z (map (proc_tokens v) cs).
Proof.
  induction cs as [| c cs IH]; simpl; [lia |].
  pose proof (countTokens_nonneg encode (applyTemplateVariables v (content c))).
  unfold proc_tokens at 1. lia.
Qed.

Definition processed (v : gmap string string) (c : PromptComponent) : PromptComponent :=
  with_content c (applyTemplateVariables v (content c)).

Definition fit_entry (v : gmap string string) (c : PromptComponent) : ComponentEntry :=
  mkEntry (id c) (type c) (proc_tokens v c) true.

Lemma build_loop_all_fit (b : TokenBudget) (v : gmap string string) cs st :
  le_limit (systemTokenCount st + sys_sum v cs) (maxTypeTokens_of b system) = true ->
  userTokenCount st + usr_sum v cs <=
    total b - (systemTokenCount st + sys_sum v cs) - reserved_or_0 b ->
  build_loop encode decode b v cs st =
    mkBS (systemComponents st ++ map (processed v) (List.filter (fun c => is_system (type c)) cs))
         (userComponents st ++ map (processed v) (List.filter (fun c => negb (is_system (type c))) cs))
         (systemTokenCount st + sys_sum v cs) (userTokenCount st + usr_sum v cs)
         (includedComponents st ++ map (fit_entry v) cs).
Proof.
  revert st. induction cs as [| c cs IH]; intros st Hs Hu.
  - destruct st. unfold sys_sum, usr_sum. simpl. rewrite !app_nil_r, !Z.add_0_r. reflexivity.
  - pose proof (sum_proc_nonneg v (List.filter (fun c => is_system (type c)) cs)) as Hn1.
    pose proof (sum_proc_nonneg v (List.filter (fun c => negb (is_system (type c))) cs)) as Hn2.
    pose proof (countTokens_nonneg encode (applyTemplateVariables v (content c))) as Hn3.
    change (build_loop encode decode b v (c :: cs) st) with
      (build_loop encode decode b v cs (build_step encode decode b v st c)).
    unfold sys_sum, usr_sum in *. cbn [List.filter] in *.
    destruct (is_system (type c)) eqn:Hsys; cbn [negb map] in *; rewrite ?sum_Z_cons in *.
    + assert (Ht : type c = system)
        by (revert Hsys; destruct (type c); cbn; congruence).
      assert (Hcan : le_limit (systemTokenCount st + proc_tokens v c) (maxTypeTokens_of b (type c)) = true).
      { rewrite Ht. eapply le_limit_mono; [exact Hs | lia]. }
      replace (build_step encode decode b v st c) with
        (mkBS (systemComponents st ++ [processed v c]) (userComponents st)
              (systemTokenCount st + proc_tokens v c) (userTokenCount st)
              (includedComponents st ++ [fit_entry v c])).
      2:{ unfold build_step. cbv zeta. rewrite Hsys. unfold proc_tokens in Hcan. rewrite Hcan.
          destruct (is_required c); reflexivity. }
      rewrite IH; cbn [systemComponents userComponents systemTokenCount userTokenCount includedComponents].
      * f_equal; [rewrite <- app_assoc; reflexivity | lia | rewrite <- app_assoc; reflexivity].
      * replace (systemTokenCount st + proc_tokens v c + _) with
          (systemTokenCount st + (proc_tokens v c + sum_Z (map (proc_tokens v)
             (List.filter (fun c0 => is_system (type c0)) cs)))) by lia. exact Hs.
      * lia.
    + assert (Hcan : (userTokenCount st + proc_tokens v c <=?
                      total b - systemTokenCount st - reserved_or_0 b) = true).
      { apply Z.leb_le. lia. }
      replace (build_step encode decode b v st c) with
        (mkBS (systemComponents st) (userComponents st ++ [processed v c])
              (systemTokenCount st) (userTokenCount st + proc_tokens v c)
              (includedComponents st ++ [fit_entry v c])).
      2:{ unfold build_step. cbv zeta. rewrite Hsys. cbn [negb andb].
          unfold proc_tokens in Hcan. rewrite Hcan.
          destruct (is_required c); reflexivity. }
      rewrite IH; cbn [systemComponents userComponents systemTokenCount userTokenCount includedComponents].
      * f_equal; [rewrite <- app_assoc; reflexivity | lia | rewrite <- app_assoc; reflexivity].
      * exact Hs.
      * lia.
Qed.

Lemma sys_sum_perm (v : gmap string string) (l l' : list PromptComponent) :
  Permutation l l' -> sys_sum v l = sys_sum v l' /\ usr_sum v l = usr_sum v l'.
Proof.
  intros Hp. unfold sys_sum, usr_sum.
  split; apply sum_Z_perm, Permutation_map, perm_filter; exact Hp.
Qed.

End FitProofs.

(** When the substituted components fit, [buildPrompt()] keeps them all
    whole: if the system components' tokens add up to at most the system
    budget (no limit when it is unset or 0) and the other components' tokens
    to at most [total - systemTokens - reserved], every audit entry is
    [included = true] with the component's full count, the token totals
    are those sums, and each prompt joins the substituted contents of its
    components in processing order. *)
Theorem buildPrompt_all_fit {token} (encode : string -> list token)
  (decode : list token -> string) (pm : PromptManager) :
  let v := pm_templateVariables pm in
  let b := pm_tokenBudget pm in
  let S := sys_sum encode v (pm_components pm) in
  let U := usr_sum encode v (pm_components pm) in
  le_limit S (maxTypeTokens_of b system) = true ->
  U <= total b - S - reserved_or_0 b ->
  let bp := buildPrompt encode decode pm in
  let sorted := sort_by_priority (pm_components pm) in
  components bp = map (fit_entry encode v) sorted /\
  systemTokens bp = S /\ userTokens bp = U /\
  systemPrompt bp = join paragraph_sep
    (map (fun c => applyTemplateVariables v (content c))
         (List.filter (fun c => is_system (type c)) sorted)) /\
  userPrompt bp = join paragraph_sep
    (map (fun c => applyTemplateVariables v (content c))
         (List.filter (fun c => negb (is_system (type c))) sorted)).
Proof.
  cbv zeta. intros Hs Hu.
  destruct (sys_sum_perm encode (pm_templateVariables pm) _ _ (sort_desc_perm prio (pm_components pm)))
    as [E1 E2].
  unfold buildPrompt, buildState. unfold sort_by_priority.
  rewrite (build_loop_all_fit encode decode); cbn [init_state systemComponents userComponents
    systemTokenCount userTokenCount includedComponents components systemTokens userTokens
    systemPrompt userPrompt app].
  - rewrite <- E1, <- E2. split; [reflexivity |]. split; [reflexivity |]. split; [reflexivity |].
    rewrite !map_map. split; reflexivity.
  - rewrite <- E1. exact Hs.
  - rewrite <- E1, <- E2. lia.
Qed.

Definition fit_sys : PromptComponent := mkComponent "s" system "Be kind." None None (Some 1).
Definition fit_usr : PromptComponent := mkComponent "u" user_input "Hi {{name}}" None None (Some 5).
Definition fit_pm : PromptManager :=
  mkPM gpt_4o (DEFAULT_TOKEN_BUDGETS gpt_4o) [fit_sys; fit_usr] (<["name" := "Sam"]> ∅).

Lemma buildPrompt_all_fit_witness :
  userPrompt (buildPrompt char_encode char_decode fit_pm) = "Hi Sam" /\
  systemTokens (buildPrompt char_encode char_decode fit_pm) = 8.
Proof.
  destruct (buildPrompt_all_fit char_encode char_decode fit_pm ltac:(vm_compute; reflexivity)
              ltac:(vm_compute; discriminate)) as [_ [Hs [_ [_ Hu]]]].
  rewrite Hu, Hs. split; vm_compute; reflexivity.
Defined.

Section UserPoolProofs.

Context {token : Type}.
Variable encode : string -> list token.
Variable decode : list token -> string.

Lemma user_pool_loop (b : TokenBudget) (v : gmap string string) cs st :
  (forall c, In c cs -> is_system (type c) = false -> is_required c = false) ->
  0 <= systemTokenCount st ->
  userTokenCount st <= Z.max 0 (total b - reserved_or_0 b) ->
  userTokenCount (build_loop encode decode b v cs st) <= Z.max 0 (total b - reserved_or_0 b).
Proof.
  revert st. induction cs as [| c cs IH]; intros st Hreq Hsys Husr; [exact Husr |].
  change (build_loop encode decode b v (c :: cs) st) with
    (build_loop encode decode b v cs (build_step encode decode b v st c)).
  apply IH; [intros c' Hin; apply Hreq; right; exact Hin | |].
  - destruct (build_step_cases encode decode b v st c)
      as [[s' [_ [_ ->]]] | [[s' [_ ->]] | [_ ->]]]; cbn [systemTokenCount];
      [pose proof (countTokens_nonneg encode s'); lia | lia | lia].
  - destruct (is_system (type c)) eqn:Hs.
    + destruct (build_step_cases encode decode b v st c)
        as [[s' [_ [_ ->]]] | [[s' [Hs' _]] | [_ ->]]]; cbn [userTokenCount]; [exact Husr | congruence | exact Husr].
    + pose proof (Hreq c (or_introl eq_refl) Hs) as Hr.
      unfold build_step. cbv zeta. rewrite Hs, Hr. cbn [negb andb orb].
      destruct (Z.leb_spec (userTokenCount st + countTokens encode (applyTemplateVariables v (content c)))
                  (total b - systemTokenCount st - reserved_or_0 b)); cbn [userTokenCount]; lia.
Qed.

End UserPoolProofs.

(** When no non-system component is required, the non-system components
    of the built prompt hold at most [total - reserved] tokens (0 when that
    is negative): each is admitted only if it fits in what the system
    tokens counted so far leave of that pool. *)
Theorem buildPrompt_user_pool_bound {token} (encode : string -> list token)
  (decode : list token -> string) (pm : PromptManager) :
  (forall c, In c (pm_components pm) -> is_system (type c) = false -> is_required c = false) ->
  0 <= userTokens (buildPrompt encode decode pm) <=
    Z.max 0 (total (pm_tokenBudget pm) - reserved_or_0 (pm_tokenBudget pm)).
Proof.
  intros Hreq. unfold buildPrompt, buildState. cbn [userTokens]. split.
  - pose proof (accounting_buildState encode decode pm) as Ha.
    unfold accounting, buildState in Ha. destruct Ha as [_ [-> _]].
    unfold content_tokens. apply sum_Z_nonneg.
  - apply user_pool_loop; [| cbn; lia | cbn; lia].
    intros c Hin. apply Hreq. apply (Permutation_in c (Permutation_sym (sort_desc_perm prio _))). exact Hin.
Qed.

Lemma buildPrompt_user_pool_bound_witness :
  userTokens (buildPrompt char_encode char_decode instr_pm) <= 100.
Proof.
  pose proof (buildPrompt_user_pool_bound char_encode char_decode instr_pm) as H.
  assert (Hreq : forall c, In c (pm_components instr_pm) -> is_system (type c) = false ->
                   is_required c = false).
  { intros c [<- | [<- | []]]; reflexivity. }
  specialize (H Hreq). revert H. vm_compute. intros [_ H]. exact H.
Defined.

(** A manager with no components builds an empty prompt with zero tokens
    and no audit entries, and yields no chat message. *)
Theorem buildPrompt_no_components {token} (encode : string -> list token)
  (decode : list token -> string) (model : SupportedModel) (custom : option PartialBudget) :
  buildPrompt encode decode (newPromptManager model custom) = mkBuilt "" "" 0 0 0 [] /\
  createChatCompletionMessages encode decode (newPromptManager model custom) = [].
Proof. split; reflexivity. Qed.

(* ================================================================== *)
(** * Further properties of the story analysis *)

(** ** determineEmotionalTone *)

Definition tone_step (text : string) : Z * string -> string * list string -> Z * string :=
  fun '(maxCount, dominant) '(tone, kws) =>
    let count := keyword_hits text kws in
    if maxCount <? count then (count, tone) else (maxCount, dominant).

Lemma tone_fold (text : string) (L : list (string * list string)) (m : Z) (d : string) :
  let r := fold_left (tone_step text) L (m, d) in
  (snd r = d /\ fst r = m /\ forall t k, In (t, k) L -> keyword_hits text k <= m) \/
  (exists pre k post, L = (pre ++ (snd r, k) :: post)%list /\ fst r = keyword_hits text k /\
     m < fst r /\
     (forall t' k', In (t', k') pre -> keyword_hits text k' < fst r) /\
     (forall t' k', In (t', k') post -> keyword_hits text k' <= fst r)).
Proof.
  cbv zeta. revert m d. induction L as [| [t k] L IH]; intros m d.
  - left. repeat split. intros t k [].
  - cbn [fold_left].
    assert (Hstep : tone_step text (m, d) (t, k) =
      if m <? keyword_hits text k then (keyword_hits text k, t) else (m, d)) by reflexivity.
    rewrite Hstep.
    destruct (Z.ltb_spec m (keyword_hits text k)) as [Hlt | Hge].
    + destruct (IH (keyword_hits text k) t) as [[Hd [Hm Hall]] | [pre [k' [post [HL [Hf [Hlt' [Hpre Hpost]]]]]]]].
      * right. exists [], k, L. rewrite Hd, Hm.
        repeat split; [lia | intros t' k' [] | exact Hall].
      * right. exists ((t, k) :: pre), k', post.
        repeat split; [cbn [app]; f_equal; exact HL | exact Hf | lia | | exact Hpost].
        intros t' k'' [Heq | Hin]; [injection Heq as -> ->; lia | apply (Hpre t' k'' Hin)].
    + destruct (IH m d) as [[Hd [Hm Hall]] | [pre [k' [post [HL [Hf [Hlt' [Hpre Hpost]]]]]]]].
      * left. repeat split; [exact Hd | exact Hm |].
        intros t' k' [Heq | Hin]; [injection Heq as -> ->; lia | apply (Hall t' k' Hin)].
      * right. exists ((t, k) :: pre), k', post.
        repeat split; [cbn [app]; f_equal; exact HL | exact Hf | exact Hlt' | | exact Hpost].
        intros t' k'' [Heq | Hin]; [injection Heq as -> ->; lia | apply (Hpre t' k'' Hin)].
Qed.

(** [determineEmotionalTone(p)] is ["neutral"] exactly when no tone keyword
    occurs in the lower-cased paragraph; otherwise it is the tone with the
    most keyword hits, the earliest of the list on a tie (happy, sad,
    scared, angry, peaceful, mysterious, adventurous). *)
Theorem determineEmotionalTone_spec (p : string) :
  let hits := keyword_hits (to_lower p) in
  (determineEmotionalTone p = "neutral" /\ forall t k, In (t, k) toneKeywords -> hits k = 0) \/
  (exists pre k post, toneKeywords = (pre ++ (determineEmotionalTone p, k) :: post)%list /\
     0 < hits k /\
     (forall t' k', In (t', k') pre -> hits k' < hits k) /\
     (forall t' k', In (t', k') post -> hits k' <= hits k)).
Proof.
  cbv zeta.
  assert (Heq : determineEmotionalTone p =
                snd (fold_left (tone_step (to_lower p)) toneKeywords (0, "neutral"))) by reflexivity.
  rewrite Heq.
  destruct (tone_fold (to_lower p) toneKeywords 0 "neutral")
    as [[Hd [_ Hall]] | [pre [k [post [HL [Hf [Hpos [Hpre Hpost]]]]]]]].
  - left. split; [exact Hd |]. intros t k Hin.
    specialize (Hall t k Hin). pose proof (keyword_hits_nonneg (to_lower p) k). lia.
  - right. exists pre, k, post. rewrite <- Hf. repeat split; assumption.
Qed.

(** ** extractCharacters *)

Lemma assoc_set_in (l : list (string * Z)) (k : string) (v : Z) (k' : string) (v' : Z) :
  NoDup (map fst l) ->
  In (k', v') (assoc_set l k v) <-> (k' = k /\ v' = v) \/ (In (k', v') l /\ k' <> k).
Proof.
  induction l as [| [k0 v0] l IH]; intros Hnd; simpl.
  - split; [intros [Heq | []]; injection Heq as -> ->; left; auto | intros [[-> ->] | [[] _]]; left; reflexivity].
  - apply NoDup_cons in Hnd as [Hn0 Hnd].
    destruct (String.eqb_spec k k0) as [-> | Hne]; simpl.
    + split.
      * intros [Heq | Hin]; [injection Heq as -> ->; left; auto |].
        right. split; [right; exact Hin |]. intros ->. apply Hn0, list_elem_of_In, in_map_iff.
        exists (k0, v'). auto.
      * intros [[-> ->] | [[Heq | Hin] Hne]]; [left; reflexivity | injection Heq as -> ->; congruence | right; exact Hin].
    + rewrite IH by exact Hnd. split.
      * intros [Heq | [[-> ->] | [Hin Hne']]]; [injection Heq as -> ->; right; split; [left; reflexivity | congruence] | left; auto | right; auto].
      * intros [[-> ->] | [[Heq | Hin] Hne']]; [right; left; auto | left; exact Heq | right; right; auto].
Qed.

Lemma assoc_set_keys (l : list (string * Z)) (k : string) (v : Z) :
  NoDup (map fst l) -> NoDup (map fst (assoc_set l k v)).
Proof.
  induction l as [| [k0 v0] l IH]; intros Hnd; simpl.
  - apply NoDup_singleton.
  - apply NoDup_cons in Hnd as [Hn0 Hnd].
    destruct (String.eqb_spec k k0) as [-> | Hne]; simpl; apply NoDup_cons.
    + split; assumption.
    + split; [| apply IH; exact Hnd].
      intros Hin. apply list_elem_of_In, in_map_iff in Hin as [[k1 v1] [Hk1 Hin]]. simpl in Hk1. subst k1.
      apply assoc_set_in in Hin; [| exact Hnd].
      destruct Hin as [[-> _] | [Hin _]]; [congruence |].
      apply Hn0, list_elem_of_In, in_map_iff. exists (k0, v1). auto.
Qed.

Definition char_step (fullText : string) (acc : list (string * Z)) (nm : string) : list (string * Z) :=
  if in_list nm commonWords then acc
  else let count := count_word fullText nm in
       if 2 <=? count then assoc_set acc nm count else acc.

Lemma char_fold (fullText : string) (names : list string) (acc : list (string * Z)) (seen : list string) :
  NoDup (map fst acc) ->
  (forall nm cnt, In (nm, cnt) acc <->
     In nm seen /\ in_list nm commonWords = false /\ cnt = count_word fullText nm /\ 2 <= cnt) ->
  let r := fold_left (char_step fullText) names acc in
  NoDup (map fst r) /\
  (forall nm cnt, In (nm, cnt) r <->
     In nm (seen ++ names) /\ in_list nm commonWords = false /\ cnt = count_word fullText nm /\ 2 <= cnt).
Proof.
  cbv zeta. revert acc seen. induction names as [| x names IH]; intros acc seen Hnd Hacc.
  - rewrite app_nil_r. split; assumption.
  - cbn [fold_left]. replace (seen ++ x :: names)%list with ((seen ++ [x]) ++ names)%list
      by (rewrite <- app_assoc; reflexivity).
    apply IH.
    + unfold char_step. destruct (in_list x commonWords); [exact Hnd |].
      destruct (2 <=? count_word fullText x); [apply assoc_set_keys; exact Hnd | exact Hnd].
    + intros nm cnt. rewrite in_app_iff. cbn [In].
      unfold char_step. destruct (in_list x commonWords) eqn:Hc.
      * rewrite Hacc. split; [tauto |].
        intros [[Hs | [<- | []]] Hr]; [tauto | destruct Hr as [Hr _]; congruence].
      * destruct (Z.leb_spec 2 (count_word fullText x)) as [H2 | H2].
        -- rewrite assoc_set_in by exact Hnd. rewrite Hacc.
           destruct (String.eqb_spec nm x) as [-> | Hne].
           ++ split; [intros [[_ ->] | [_ Hne]]; [tauto | congruence] |].
              intros [_ [_ [-> _]]]. left. auto.
           ++ split; [intros [[Heq _] | [H Hne']]; [congruence | tauto] |].
              intros [[Hs | [Heq | []]] Hr]; [right; tauto | congruence].
        -- rewrite Hacc. split; [tauto |].
           intros [[Hs | [<- | []]] Hr]; [tauto | lia].
Qed.

(** The character mentions of [extractCharacters(paragraphs)] have distinct
    names, and a pair [(name, count)] is among them exactly when [name] is a
    capitalised word ([\b[A-Z][a-z]+\b]) of the text joined with spaces, not
    one of the common words, and occurs at least twice as a whole word,
    [count] times. *)
Theorem extractCharacters_spec (paragraphs : list string) :
  let fullText := join " " paragraphs in
  NoDup (map fst (extractCharacters paragraphs)) /\
  forall nm cnt, In (nm, cnt) (extractCharacters paragraphs) <->
    In nm (match_names fullText) /\ in_list nm commonWords = false /\
    cnt = count_word fullText nm /\ 2 <= cnt.
Proof.
  cbv zeta.
  destruct (char_fold (join " " paragraphs) (match_names (join " " paragraphs)) [] []) as [H1 H2].
  - constructor.
  - intros nm cnt. split; [intros [] | intros [[] _]].
  - split; [exact H1 |]. intros nm cnt. exact (H2 nm cnt).
Qed.

(** ** identifyNarrativeElements *)

Lemma action_score_nonneg (ps : list string) (i : Z) : 0 <= action_score ps i.
Proof. unfold action_score. apply keyword_hits_nonneg. Qed.

(** with at least three paragraphs, the action paragraph lies in
    [1 .. floor(0.6 N)], which is below [N - 1] *)
Lemma findAction_range (ps : list string) :
  3 <= plen ps ->
  let a := findActionParagraph ps 1 (plen ps * 3 / 5) in
  1 <= a <= plen ps * 3 / 5 /\ a < plen ps - 1.
Proof.
  intros HN. cbv zeta.
  set (N := plen ps) in *.
  assert (Hhi : 1 <= N * 3 / 5) by (apply Z.div_le_lower_bound; lia).
  assert (Hhi' : N * 3 / 5 < N - 1).
  { pose proof (Z.mul_div_le (N * 3) 5 ltac:(lia)). lia. }
  unfold findActionParagraph, loop_indices. fold N.
  rewrite best_index_unfold.
  pose proof (scan_spec (action_score ps) 1
                (Z.to_nat (Z.min (N * 3 / 5 + 1) N - 1))
                (action_score_nonneg ps) ltac:(lia)) as Hs.
  destruct (fold_left _ _ _) as [best highest]. simpl.
  destruct Hs as [[-> _] | [Hb _]].
  - replace ((-1 =? -1) && (1 <=? N * 3 / 5) && (N * 3 / 5 <? N)) with true
      by (symmetry; apply andb_true_iff; split; [apply andb_true_iff; split |];
          [apply Z.eqb_refl | apply Z.leb_le; lia | apply Z.ltb_lt; lia]).
    split; [split |].
    + apply Z.div_le_lower_bound; lia.
    + apply Z.div_le_upper_bound; lia.
    + apply Z.div_lt_upper_bound; lia.
  - replace (best =? -1) with false by (symmetry; apply Z.eqb_neq; lia).
    simpl. lia.
Qed.

Lemma findClimax_range (ps : list string) :
  3 < plen ps ->
  let c := findClimaxParagraph ps (plen ps * 3 / 5) (plen ps * 9 / 10) in
  plen ps * 3 / 5 <= c <= plen ps - 1.
Proof.
  intros HN. cbv zeta.
  set (N := plen ps) in *.
  assert (Hlo : 0 <= N * 3 / 5) by (apply Z.div_pos; lia).
  unfold findClimaxParagraph, loop_indices. fold N.
  rewrite best_index_unfold.
  pose proof (scan_spec (climax_score ps) (N * 3 / 5)
                (Z.to_nat (Z.min (N * 9 / 10 + 1) N - N * 3 / 5))
                (climax_score_nonneg ps) Hlo) as Hs.
  destruct (fold_left _ _ _) as [best highest]. simpl.
  destruct Hs as [[-> _] | [Hb _]].
  - simpl. split; [| lia].
    apply Z.min_glb; [| pose proof (Z.mul_div_le (N * 3) 5 ltac:(lia)); lia].
    apply Z.div_le_lower_bound; [lia |].
    pose proof (Z.mul_div_le (N * 3) 5 ltac:(lia)). lia.
  - replace (best =? -1) with false by (symmetry; apply Z.eqb_neq; lia). lia.
Qed.

(** the element list of [identifyNarrativeElements], case by case *)
Lemma identify_cases (ps : list string) :
  let N := plen ps in
  let a := findActionParagraph ps 1 (N * 3 / 5) in
  let c := findClimaxParagraph ps (N * 3 / 5) (N * 9 / 10) in
  let es := identifyNarrativeElements ps in
  (N = 0 -> es = []) /\
  (N = 1 -> es = [element_at ps 0 introduction 9]) /\
  (N = 2 -> es = [element_at ps 0 introduction 9; element_at ps (N - 1) resolution 8]) /\
  (N = 3 -> es = [element_at ps 0 introduction 9; element_at ps a action 7;
                  element_at ps (N - 1) resolution 8]) /\
  (4 <= N -> es = [element_at ps 0 introduction 9; element_at ps a action 7;
                   element_at ps c climax 10; element_at ps (N - 1) resolution 8]).
Proof.
  cbv zeta. unfold identifyNarrativeElements. cbv zeta.
  set (N := plen ps).
  assert (HN : 0 <= N) by (unfold N, plen; lia).
  repeat split; intros HNv.
  - rewrite HNv. reflexivity.
  - rewrite HNv. reflexivity.
  - rewrite HNv. reflexivity.
  - destruct (findAction_range ps ltac:(fold N; lia)) as [Ha _]. cbv zeta in Ha. fold N in Ha.
    replace (negb (findActionParagraph ps 1 (N * 3 / 5) =? -1)) with true
      by (symmetry; apply negb_true_iff, Z.eqb_neq; lia).
    rewrite HNv. reflexivity.
  - destruct (findAction_range ps ltac:(fold N; lia)) as [Ha _]. cbv zeta in Ha. fold N in Ha.
    pose proof (findClimax_range ps ltac:(fold N; lia)) as Hc. cbv zeta in Hc. fold N in Hc.
    replace (negb (findActionParagraph ps 1 (N * 3 / 5) =? -1)) with true
      by (symmetry; apply negb_true_iff, Z.eqb_neq; lia).
    replace (negb (findClimaxParagraph ps (N * 3 / 5) (N * 9 / 10) =? -1)) with true
      by (symmetry; apply negb_true_iff, Z.eqb_neq; lia).
    replace (0 <? N) with true by (symmetry; apply Z.ltb_lt; lia).
    replace (1 <? N) with true by (symmetry; apply Z.ltb_lt; lia).
    replace (2 <? N) with true by (symmetry; apply Z.ltb_lt; lia).
    replace (3 <? N) with true by (symmetry; apply Z.ltb_lt; lia).
    reflexivity.
Qed.

(** [identifyNarrativeElements(paragraphs)] never yields a missing
    element: for [N] paragraphs its element types are, in order, none
    ([N = 0]), introduction ([N = 1]), introduction and resolution
    ([N = 2]), introduction, action and resolution ([N = 3]), and
    introduction, action, climax and resolution ([N >= 4]).  Every element
    describes an existing paragraph [0 <= i < N] (its fields are those
    computed from [paragraphs[i]]); the introduction is paragraph 0 with
    importance 9, the action lies in [1 .. floor(0.6 N)] with importance 7,
    the climax lies in [floor(0.6 N) .. N - 1] with importance 10, and the
    resolution is paragraph [N - 1] with importance 8. *)
Theorem identifyNarrativeElements_structure (ps : list string) :
  let N := plen ps in
  let es := identifyNarrativeElements ps in
  (N = 0 -> es = []) /\
  (N = 1 -> map element_type es = [introduction]) /\
  (N = 2 -> map element_type es = [introduction; resolution]) /\
  (N = 3 -> map element_type es = [introduction; action; resolution]) /\
  (4 <= N -> map element_type es = [introduction; action; climax; resolution]) /\
  (forall e, In e es ->
     e = element_at ps (paragraphIndex e) (element_type e) (importance e) /\
     0 <= paragraphIndex e < N /\
     (element_type e = introduction -> paragraphIndex e = 0 /\ importance e = 9) /\
     (element_type e = action -> 1 <= paragraphIndex e <= N * 3 / 5 /\ importance e = 7) /\
     (element_type e = climax -> N * 3 / 5 <= paragraphIndex e /\ importance e = 10) /\
     (element_type e = resolution -> paragraphIndex e = N - 1 /\ importance e = 8)).
Proof.
  cbv zeta.
  destruct (identify_cases ps) as [H0 [H1 [H2 [H3 H4]]]]. cbv zeta in *.
  set (N := plen ps) in *.
  assert (HN : 0 <= N) by (unfold N, plen; lia).
  split; [exact H0 |].
  split; [intros Hv; rewrite (H1 Hv); reflexivity |].
  split; [intros Hv; rewrite (H2 Hv); reflexivity |].
  split; [intros Hv; rewrite (H3 Hv); reflexivity |].
  split; [intros Hv; rewrite (H4 Hv); reflexivity |].
  intros e Hin.
  assert (Hcase : N = 0 \/ N = 1 \/ N = 2 \/ N = 3 \/ 4 <= N) by lia.
  destruct Hcase as [Hv | [Hv | [Hv | [Hv | Hv]]]].
  - rewrite (H0 Hv) in Hin. destruct Hin.
  - rewrite (H1 Hv) in Hin. destruct Hin as [<- | []].
    cbn. repeat split; try lia; intros; discriminate.
  - rewrite (H2 Hv) in Hin. destruct Hin as [<- | [<- | []]];
      cbn; repeat split; try lia; intros; discriminate.
  - destruct (findAction_range ps ltac:(fold N; lia)) as [Ha Ha']. cbv zeta in Ha, Ha'. fold N in Ha, Ha'.
    rewrite (H3 Hv) in Hin. destruct Hin as [<- | [<- | [<- | []]]];
      cbn; repeat split; try lia; intros; discriminate.
  - destruct (findAction_range ps ltac:(fold N; lia)) as [Ha Ha']. cbv zeta in Ha, Ha'. fold N in Ha, Ha'.
    pose proof (findClimax_range ps ltac:(fold N; lia)) as Hc. cbv zeta in Hc. fold N in Hc.
    rewrite (H4 Hv) in Hin. destruct Hin as [<- | [<- | [<- | [<- | []]]]];
      cbn; repeat split; try lia; intros; discriminate.
Qed.

(** ** mainCharacters of analyzeStoryContent *)

Lemma in_firstn_in {A} (n : nat) (l : list A) (x : A) : In x (firstn n l) -> In x l.
Proof. intros H. rewrite <- (firstn_skipn n l). apply in_or_app. left. exact H. Qed.

Lemma find_index_from_range (i : Z) (ps : list string) (nm : string) :
  find_index_from i ps nm = -1 \/
  i <= find_index_from i ps nm < i + Z.of_nat (length ps).
Proof.
  revert i. induction ps as [| p ps IH]; intros i; simpl; [left; reflexivity |].
  destruct (includes (to_lower p) (to_lower nm)); [right; lia |].
  destruct (IH (i + 1)) as [H | H]; [left; exact H | right; lia].
Qed.

Lemma to_character_fields (content : list string) (nm : string) (m : Z) :
  name (to_character content (nm, m)) = nm /\
  char_importance (to_character content (nm, m)) = Z.min 10 (Z.max 1 (ceil_half m)) /\
  firstAppearance (to_character content (nm, m)) =
    (if 0 <=? find_index_from 0 content nm then find_index_from 0 content nm else 0).
Proof. repeat split. Qed.

Lemma extractCharacters_nil : extractCharacters [] = [].
Proof. reflexivity. Qed.

Lemma sorted_app_le {A} (R : A -> A -> Prop) (l1 l2 : list A) :
  (forall x y z, R x y -> R y z -> R x z) ->
  Sorted R (l1 ++ l2)%list -> forall a b, In a l1 -> In b l2 -> R a b.
Proof.
  intros Htr Hs. apply Sorted_StronglySorted in Hs; [| exact Htr].
  induction l1 as [| x l1 IH]; intros a b Ha Hb; [destruct Ha |].
  apply StronglySorted_inv in Hs as [Hs Hf].
  destruct Ha as [<- | Ha].
  - rewrite List.Forall_forall in Hf. apply Hf, in_or_app. right. exact Hb.
  - apply IH; assumption.
Qed.

Lemma sorted_firstn {A} (R : A -> A -> Prop) (n : nat) (l : list A) :
  Sorted R l -> Sorted R (firstn n l).
Proof.
  revert l. induction n as [| n IH]; intros l Hs; [constructor |].
  destruct l as [| x l]; [constructor |]. cbn [firstn].
  apply Sorted_inv in Hs as [Hs Hhd]. constructor; [apply IH; exact Hs |].
  destruct l as [| y l]; destruct n; cbn [firstn]; constructor.
  apply HdRel_inv in Hhd. exact Hhd.
Qed.

Lemma nodup_firstn {A} (n : nat) (l : list A) : NoDup l -> NoDup (firstn n l).
Proof.
  intros H. rewrite <- (firstn_skipn n l) in H. apply NoDup_app in H. tauto.
Qed.

Lemma main_character_of (content : list string) (c : CharacterDescription) :
  In c (sort_desc char_importance (map (to_character content) (extractCharacters content))) ->
  exists cnt, In (name c, cnt) (extractCharacters content) /\
    c = to_character content (name c, cnt) /\
    0 <= firstAppearance c < plen content.
Proof.
  intros Hin.
  apply (Permutation_in _ (Permutation_sym (sort_desc_perm _ _))) in Hin.
  apply in_map_iff in Hin as [[nm cnt] [<- Hin]].
  destruct (to_character_fields content nm cnt) as [Hn [_ Hf]].
  exists cnt. rewrite Hn. split; [exact Hin |]. split; [reflexivity |].
  rewrite Hf. destruct content as [| p ps]; [rewrite extractCharacters_nil in Hin; destruct Hin |].
  unfold plen. cbn [length].
  destruct (find_index_from_range 0 (p :: ps) nm) as [Hm | Hr].
  - rewrite Hm. cbn. lia.
  - destruct (Z.leb_spec 0 (find_index_from 0 (p :: ps) nm)); cbn [length] in Hr; lia.
Qed.

(** [mainCharacters] of [analyzeStoryContent] holds at most three
    characters with distinct names, sorted by importance, highest first.
    Each one is a character mention [(name, count)] of
    [extractCharacters(content)] with importance [min(10, ceil(count / 2))],
    between 1 and 10, and its first appearance is a paragraph index
    [0 <= i < N].  A mention left out is no more important than any
    character kept, and then three characters are kept. *)
Theorem mainCharacters_spec (ttl : string) (content : list string) (thm : option string) :
  let mains := mainCharacters (analyzeStoryContent ttl content thm) in
  (length mains <= 3)%nat /\ NoDup (map name mains) /\
  Sorted (fun a b => char_importance b <= char_importance a) mains /\
  (forall c, In c mains ->
     0 <= firstAppearance c < plen content /\ 1 <= char_importance c <= 10 /\
     exists cnt, In (name c, cnt) (extractCharacters content) /\
       char_importance c = Z.min 10 (ceil_half cnt)) /\
  (forall nm cnt, In (nm, cnt) (extractCharacters content) -> ~ In nm (map name mains) ->
     length mains = 3%nat /\
     forall c, In c mains -> Z.min 10 (ceil_half cnt) <= char_importance c).
Proof.
  cbv zeta. cbn [mainCharacters analyzeStoryContent].
  set (E := extractCharacters content).
  set (S := sort_desc char_importance (map (to_character content) E)).
  destruct (extractCharacters_spec content) as [HndE HE]. cbv zeta in HE. fold E in HndE, HE.
  assert (Hmap : map name (map (to_character content) E) = map fst E).
  { rewrite map_map. apply map_ext. intros [nm m]. reflexivity. }
  assert (HndS : NoDup (map name S)).
  { assert (Hp : Permutation (map name (map (to_character content) E)) (map name S))
      by (apply Permutation_map, sort_desc_perm).
    rewrite <- Hp, Hmap. exact HndE. }
  assert (HsS : Sorted (fun a b => char_importance b <= char_importance a) S)
    by apply (sort_desc_sorted char_importance).
  assert (Himp : forall nm cnt, In (nm, cnt) E ->
            char_importance (to_character content (nm, cnt)) = Z.min 10 (ceil_half cnt)).
  { intros nm cnt Hin. apply HE in Hin as [_ [_ [_ H2]]].
    destruct (to_character_fields content nm cnt) as [_ [-> _]].
    unfold ceil_half. f_equal. apply Z.max_r. apply Z.div_le_lower_bound; lia. }
  split; [rewrite length_firstn; lia |].
  split; [rewrite <- firstn_map; apply nodup_firstn; exact HndS |].
  split; [apply sorted_firstn; exact HsS |].
  split.
  - intros c Hc. apply in_firstn_in in Hc.
    destruct (main_character_of content c Hc) as [cnt [Hin [Heq Hfa]]].
    split; [exact Hfa |].
    pose proof (Himp _ _ Hin) as Hi. rewrite <- Heq in Hi.
    assert (H2 : 2 <= cnt) by (apply HE in Hin; tauto).
    assert (1 <= ceil_half cnt) by (unfold ceil_half; apply Z.div_le_lower_bound; lia).
    split; [lia |]. exists cnt. split; [exact Hin | exact Hi].
  - intros nm cnt Hin Hnot.
    set (x := to_character content (nm, cnt)).
    assert (HxS : In x S)
      by (apply (Permutation_in _ (sort_desc_perm _ _)), in_map; exact Hin).
    assert (Hxn : ~ In x (firstn 3 S)).
    { intros Hx. apply Hnot. change nm with (name x). apply in_map. exact Hx. }
    assert (Hxr : In x (skipn 3 S)).
    { rewrite <- (firstn_skipn 3 S) in HxS. apply in_app_iff in HxS. tauto. }
    split.
    + rewrite length_firstn.
      assert (3 < length S)%nat.
      { destruct (Nat.lt_ge_cases 3 (length S)) as [H | H]; [exact H |].
        rewrite skipn_all2 in Hxr by exact H. destruct Hxr. }
      lia.
    + intros c Hc. rewrite <- (Himp _ _ Hin). fold x.
      rewrite <- (firstn_skipn 3 S) in HsS.
      refine (sorted_app_le (fun a b => char_importance b <= char_importance a) _ _ _ HsS c x Hc Hxr).
      intros a b d; lia.
Qed.

(** ** recommendedImageParagraphs of analyzeStoryContent *)

Lemma set_values_acc_in (l acc : list Z) (i : Z) :
  In i (fold_left (fun acc x => if existsb (Z.eqb x) acc then acc else (acc ++ [x])%list) l acc)
  <-> In i acc \/ In i l.
Proof.
  revert acc. induction l as [| x l IH]; intros acc; simpl; [tauto |].
  destruct (existsb (Z.eqb x) acc) eqn:E; rewrite IH.
  - split; [tauto |]. intros [H | [<- | H]]; auto.
    left. apply existsb_exists in E as [y [Hy Heq]]. apply Z.eqb_eq in Heq. subst. exact Hy.
  - rewrite in_app_iff. simpl. split; [intros [[H | [<- | []]] | H]; auto |].
    intros [H | [<- | H]]; auto.
Qed.

Lemma sort_asc_set_values_in (l : list Z) (i : Z) : In i (sort_asc (set_values l)) <-> In i l.
Proof.
  split; intros H.
  - apply (Permutation_in _ (Permutation_sym (sort_asc_perm _))) in H.
    unfold set_values in H. apply set_values_acc_in in H. destruct H as [[] | H]; exact H.
  - apply (Permutation_in _ (sort_asc_perm _)). unfold set_values.
    apply set_values_acc_in. right. exact H.
Qed.

Lemma list_insert_in (l : list Z) (k : nat) (y x : Z) : In x (<[k:=y]> l) -> x = y \/ In x l.
Proof.
  revert k. induction l as [| a l IH]; intros [| k] Hin; simpl in Hin; try tauto.
  - destruct Hin as [<- | H]; [left; reflexivity | right; right; exact H].
  - destruct Hin as [<- | H]; [right; left; reflexivity |].
    destruct (IH k H) as [-> | H']; [left; reflexivity | right; right; exact H'].
Qed.

(** every recommended index is the index of an element or the first
    appearance of the first character *)
Lemma select_subset (ps : list string) (elems : list NarrativeElement)
  (chars : list CharacterDescription) (i : Z) :
  In i (selectOptimalImageParagraphs ps elems chars) ->
  In i (map paragraphIndex elems) \/
  (exists c0 rest, chars = c0 :: rest /\ i = firstAppearance c0).
Proof.
  unfold selectOptimalImageParagraphs. cbv zeta. rewrite sort_asc_set_values_in.
  assert (Hsub : forall x, In x (map paragraphIndex (firstn 4 (sort_desc importance elems))) ->
                           In x (map paragraphIndex elems)).
  { intros x Hx. apply in_map_iff in Hx as [e [<- He]]. apply in_map.
    apply (Permutation_in _ (Permutation_sym (sort_desc_perm importance elems))).
    apply (in_firstn_in 4). exact He. }
  intros H. destruct chars as [| c0 rest]; [left; apply Hsub; exact H |].
  destruct (existsb _ _); [left; apply Hsub; exact H |].
  destruct (Nat.ltb _ _).
  - apply in_app_iff in H as [H | [<- | []]]; [left; apply Hsub, H | right; eauto].
  - destruct (last _) as [least |]; [| left; apply Hsub, H].
    destruct (importance least <? 8); [| left; apply Hsub, H].
    destruct (index_of_Z _ _); [| left; apply Hsub, H].
    apply list_insert_in in H as [-> | H]; [right; eauto | left; apply Hsub, H].
Qed.

Lemma existsb_eqb_in (x : Z) (l : list Z) : existsb (Z.eqb x) l = true -> In x l.
Proof. intros H. apply existsb_exists in H as [y [Hy Heq]]. apply Z.eqb_eq in Heq. subst. exact Hy. Qed.

Lemma index_of_four (ic z r ia : Z) :
  z <> ia -> r <> ia ->
  index_of_Z [ic; z; r; ia] ia = Some (if ic =? ia then 0%nat else 3%nat).
Proof.
  intros Hz Hr. cbn [index_of_Z].
  replace (z =? ia) with false by (symmetry; apply Z.eqb_neq; exact Hz).
  replace (r =? ia) with false by (symmetry; apply Z.eqb_neq; exact Hr).
  rewrite Z.eqb_refl. destruct (ic =? ia); reflexivity.
Qed.

Ltac finish_in :=
  repeat split; intros;
  repeat match goal with
         | H : _ :: _ = _ :: _ |- _ => injection H as <- <-
         | H : [] = _ :: _ |- _ => discriminate H
         end;
  rewrite ?sort_asc_set_values_in; cbn [In] in *; lia.

Lemma analyze_unfold (ttl : string) (content : list string) (thm : option string) :
  recommendedImageParagraphs (analyzeStoryContent ttl content thm) =
  selectOptimalImageParagraphs content (identifyNarrativeElements content)
    (mainCharacters (analyzeStoryContent ttl content thm)).
Proof. reflexivity. Qed.

(** [recommendedImageParagraphs] of [analyzeStoryContent] only names
    existing paragraphs [0 <= i < N], and it always includes the first
    paragraph (N >= 1), the last paragraph (N >= 2), the climax paragraph
    (N >= 4) and the first appearance of the most important main
    character. *)
Theorem recommendedImageParagraphs_coverage (ttl : string) (content : list string)
  (thm : option string) :
  let a := analyzeStoryContent ttl content thm in
  let N := plen content in
  let R := recommendedImageParagraphs a in
  (forall i, In i R -> 0 <= i < N) /\
  (1 <= N -> In 0 R) /\
  (2 <= N -> In (N - 1) R) /\
  (4 <= N -> In (findClimaxParagraph content (N * 3 / 5) (N * 9 / 10)) R) /\
  (forall c0 rest, mainCharacters a = c0 :: rest -> In (firstAppearance c0) R).
Proof.
  cbv zeta. rewrite analyze_unfold.
  set (mains := mainCharacters (analyzeStoryContent ttl content thm)).
  destruct (mainCharacters_spec ttl content thm) as [_ [_ [_ [Hmains _]]]].
  cbv zeta in Hmains. fold mains in Hmains.
  destruct (identifyNarrativeElements_structure content) as [_ [_ [_ [_ [_ Hel]]]]].
  cbv zeta in Hel.
  destruct (identify_cases content) as [H0 [H1 [H2 [H3 H4]]]]. cbv zeta in *.
  set (N := plen content) in *.
  set (ia := findActionParagraph content 1 (N * 3 / 5)) in *.
  set (ic := findClimaxParagraph content (N * 3 / 5) (N * 9 / 10)) in *.
  assert (HN : 0 <= N) by (unfold N, plen; lia).
  assert (Hia : 3 <= N -> 1 <= ia <= N * 3 / 5 /\ ia < N - 1)
    by (intros H3N; apply (findAction_range content H3N)).
  clearbody mains ia ic N.
  split.
  { intros i Hi. apply select_subset in Hi as [Hi | [c0 [rest [Hc ->]]]].
    - apply in_map_iff in Hi as [e [<- He]]. apply Hel. exact He.
    - apply Hmains. rewrite Hc. left. reflexivity. }
  unfold selectOptimalImageParagraphs. cbv zeta.
  assert (Hcase : N = 0 \/ N = 1 \/ N = 2 \/ N = 3 \/ 4 <= N) by lia.
  destruct Hcase as [Hv | [Hv | [Hv | [Hv | Hv]]]].
  - rewrite (H0 Hv).
    assert (Hm : mains = []).
    { destruct mains as [| c0 rest]; [reflexivity |].
      destruct (Hmains c0 (or_introl eq_refl)). lia. }
    rewrite Hm. cbn -[existsb index_of_Z Z.eqb set_values sort_asc]. finish_in.
  - rewrite (H1 Hv). cbn -[existsb index_of_Z Z.eqb set_values sort_asc].
    destruct mains as [| c0 rest]; cbn -[existsb index_of_Z Z.eqb set_values sort_asc]; [finish_in |].
    destruct (existsb _ _) eqn:E; [apply existsb_eqb_in in E |]; finish_in.
  - rewrite (H2 Hv). cbn -[existsb index_of_Z Z.eqb set_values sort_asc].
    destruct mains as [| c0 rest]; cbn -[existsb index_of_Z Z.eqb set_values sort_asc]; [finish_in |].
    destruct (existsb _ _) eqn:E; [apply existsb_eqb_in in E |]; finish_in.
  - rewrite (H3 Hv). cbn -[existsb index_of_Z Z.eqb set_values sort_asc].
    destruct mains as [| c0 rest]; cbn -[existsb index_of_Z Z.eqb set_values sort_asc]; [finish_in |].
    destruct (existsb _ _) eqn:E; [apply existsb_eqb_in in E |]; finish_in.
  - destruct (Hia ltac:(lia)) as [Ha Ha'].
    rewrite (H4 Hv). cbn -[existsb index_of_Z Z.eqb set_values sort_asc].
    destruct mains as [| c0 rest]; cbn -[existsb index_of_Z Z.eqb set_values sort_asc]; [finish_in |].
    destruct (existsb _ _) eqn:E; [apply existsb_eqb_in in E; finish_in |].
    rewrite index_of_four by lia.
    destruct (Z.eqb_spec ic ia); cbn -[existsb index_of_Z Z.eqb set_values sort_asc]; finish_in.
Qed.

(** ** extractSettings *)

(** the [forEach] callback of [extractSettings], as a list of pushed settings *)
Definition setting_of : nat * string -> list SettingDescription :=
  fun '(idx, paragraph) =>
    match find (fun ind => includes (to_lower paragraph) ind) settingIndicators with
    | Some ind => [mkSetting (trim (phrase_at paragraph ind)) paragraph (Z.of_nat idx)]
    | None => []
    end.

(** some setting indicator occurs in the lower-cased paragraph *)
Definition has_setting_indicator (paragraph : string) : bool :=
  existsb (fun ind => includes (to_lower paragraph) ind) settingIndicators.

Lemma extractSettings_unfold (ps : list string) :
  extractSettings ps = flat_map setting_of (combine (seq 0 (length (firstn 5 ps))) (firstn 5 ps)).
Proof. reflexivity. Qed.

Lemma find_none_existsb {A} (f : A -> bool) (l : list A) :
  find f l = None <-> existsb f l = false.
Proof.
  induction l as [| x l IH]; simpl; [tauto |].
  destruct (f x); simpl; [split; discriminate | exact IH].
Qed.

Lemma settings_aux (l : list string) (k : nat) :
  map setting_firstAppearance (flat_map setting_of (combine (seq k (length l)) l)) =
  map Z.of_nat (List.filter (fun i => has_setting_indicator (nth (i - k) l "")) (seq k (length l))) /\
  (forall s, In s (flat_map setting_of (combine (seq k (length l)) l)) ->
     exists i, (k <= i < k + length l)%nat /\ setting_firstAppearance s = Z.of_nat i /\
       setting_description s = nth (i - k) l "" /\
       exists ind, find (fun ind => includes (to_lower (setting_description s)) ind)
                     settingIndicators = Some ind /\
                   setting_name s = trim (phrase_at (setting_description s) ind)).
Proof.
  revert k. induction l as [| p l IH]; intros k; [split; [reflexivity | intros s []] |].
  destruct (IH (S k)) as [IH1 IH2].
  cbn [length seq combine flat_map List.filter].
  rewrite Nat.sub_diag.
  assert (Hrest : List.filter (fun i => has_setting_indicator (nth (i - k) (p :: l) "")) (seq (S k) (length l))
                  = List.filter (fun i => has_setting_indicator (nth (i - S k) l "")) (seq (S k) (length l))).
  { apply filter_ext_in. intros i Hi. apply in_seq in Hi.
    replace (i - k)%nat with (S (i - S k)) by lia. reflexivity. }
  rewrite Hrest. change (nth 0 (p :: l) "") with p.
  assert (Hk : setting_of (k, p) =
    match find (fun ind => includes (to_lower p) ind) settingIndicators with
    | Some ind => [mkSetting (trim (phrase_at p ind)) p (Z.of_nat k)]
    | None => []
    end) by reflexivity.
  rewrite Hk. unfold has_setting_indicator at 1.
  destruct (find (fun ind => includes (to_lower p) ind) settingIndicators) as [ind |] eqn:Ef.
  - assert (Hex : existsb (fun ind => includes (to_lower p) ind) settingIndicators = true).
    { apply find_some in Ef as [Hin Hf]. apply existsb_exists. exists ind. auto. }
    rewrite Hex. split.
    + cbn [app map]. f_equal. exact IH1.
    + intros s Hs. apply in_app_iff in Hs as [[<- | []] | Hs].
      * exists k. cbn. split; [lia |]. split; [reflexivity |].
        rewrite Nat.sub_diag. split; [reflexivity |]. exists ind. split; [exact Ef | reflexivity].
      * destruct (IH2 s Hs) as [i [Hi [Hfa [Hd Hind]]]].
        exists i. split; [lia |]. split; [exact Hfa |]. split; [| exact Hind].
        rewrite Hd. replace (i - k)%nat with (S (i - S k)) by lia. reflexivity.
  - apply find_none_existsb in Ef. rewrite Ef. split; [exact IH1 |].
    intros s Hs. cbn [app] in Hs. destruct (IH2 s Hs) as [i [Hi [Hfa [Hd Hind]]]].
    exists i. split; [lia |]. split; [exact Hfa |]. split; [| exact Hind].
    rewrite Hd. replace (i - k)%nat with (S (i - S k)) by lia. reflexivity.
Qed.

(** [extractSettings(paragraphs)] yields one setting for each of the first
    five paragraphs (index [i < min(5, N)]) that contains a setting
    indicator once lower-cased, in paragraph order, with [firstAppearance]
    the index [i]; each setting's description is that paragraph, and its
    name is the trimmed phrase starting at the first indicator (in the
    list's order) the paragraph contains. *)
Theorem extractSettings_spec (ps : list string) :
  map setting_firstAppearance (extractSettings ps) =
    map Z.of_nat (List.filter (fun i => has_setting_indicator (nth i ps ""))
                              (seq 0 (Nat.min 5 (length ps)))) /\
  (forall s, In s (extractSettings ps) ->
     0 <= setting_firstAppearance s < Z.min 5 (plen ps) /\
     setting_description s = par ps (setting_firstAppearance s) /\
     exists ind, find (fun ind => includes (to_lower (setting_description s)) ind)
                   settingIndicators = Some ind /\
                 setting_name s = trim (phrase_at (setting_description s) ind)).
Proof.
  rewrite extractSettings_unfold.
  destruct (settings_aux (firstn 5 ps) 0) as [H1 H2].
  rewrite length_firstn in *.
  split.
  - rewrite H1. f_equal. apply filter_ext_in. intros i Hi. apply in_seq in Hi.
    rewrite Nat.sub_0_r, nth_firstn.
    replace (i <? 5)%nat with true by (symmetry; apply Nat.ltb_lt; lia). reflexivity.
  - intros s Hs. destruct (H2 s Hs) as [i [Hi [Hfa [Hd Hind]]]].
    split; [unfold plen; lia |]. split; [| exact Hind].
    rewrite Hd, Hfa, Nat.sub_0_r, nth_firstn. unfold par. rewrite Nat2Z.id.
    replace (i <? 5)%nat with true by (symmetry; apply Nat.ltb_lt; lia). reflexivity.
Qed.

(* ================================================================== *)
(** * Properties of the story prompt templates *)

Lemma buildPrompt_required_entry {token} (encode : string -> list token)
  (decode : list token -> string) (pm : PromptManager) (c : PromptComponent) :
  In c (pm_components pm) -> is_required c = true ->
  exists e, In e (components (buildPrompt encode decode pm)) /\
            entry_id e = id c /\ entry_type e = type c /\ included e = true.
Proof.
  intros Hin Hreq. unfold buildPrompt, buildState. simpl.
  apply build_loop_required; [| exact Hreq].
  apply (Permutation_in c (sort_desc_perm prio (pm_components pm))). exact Hin.
Qed.

Definition optional_components (options : option StoryOptions) : list PromptComponent :=
  (match opt_readingLevel options with Some l => [reading_level_component l] | None => [] end) ++
  (match opt_storyLength options with Some l => [story_length_component l] | None => [] end).

Lemma createTemplateStoryPrompt_eq (V N K TF template : string) (options : option StoryOptions) :
  createTemplateStoryPrompt V N K TF template options =
  Ok (mkPM gpt_4o (DEFAULT_TOKEN_BUDGETS gpt_4o)
        ([STORY_SYSTEM_PROMPT; template_instruction template] ++ optional_components options ++
         guidance_components V N K ++ [format_component TF])
        {[ "theme" := template ]}).
Proof.
  destruct options as [[sl rl] |]; [destruct sl as [[] |], rl as [[] |] |]; reflexivity.
Qed.

Lemma createKeywordsStoryPrompt_eq (V N K KF keywords : string) (options : option StoryOptions) :
  createKeywordsStoryPrompt V N K KF keywords options =
  Ok (mkPM gpt_4o (DEFAULT_TOKEN_BUDGETS gpt_4o)
        ([STORY_SYSTEM_PROMPT; keywords_instruction keywords] ++ optional_components options ++
         guidance_components V N K ++ [format_component KF])
        ∅).
Proof.
  destruct options as [[sl rl] |]; [destruct sl as [[] |], rl as [[] |] |]; reflexivity.
Qed.

(** [createTemplateStoryPrompt(template, options)] and
    [createKeywordsStoryPrompt(keywords, options)] never throw: they give a
    gpt-4o manager with the default budget whose components are, in order,
    the system prompt, the story instruction, the reading-level and
    story-length instructions when those options are set, the
    visualization, narrative and key-moments guidance, and the output
    format; the template version sets the single template variable
    [theme] to the template, the keywords version sets none. *)
Theorem story_prompt_builders_spec (V N K TF KF template keywords : string)
  (options : option StoryOptions) :
  createTemplateStoryPrompt V N K TF template options =
  Ok (mkPM gpt_4o (DEFAULT_TOKEN_BUDGETS gpt_4o)
        ([STORY_SYSTEM_PROMPT; template_instruction template] ++ optional_components options ++
         guidance_components V N K ++ [format_component TF])
        {[ "theme" := template ]}) /\
  createKeywordsStoryPrompt V N K KF keywords options =
  Ok (mkPM gpt_4o (DEFAULT_TOKEN_BUDGETS gpt_4o)
        ([STORY_SYSTEM_PROMPT; keywords_instruction keywords] ++ optional_components options ++
         guidance_components V N K ++ [format_component KF])
        ∅) /\
  (map id ([STORY_SYSTEM_PROMPT; template_instruction template] ++ optional_components options ++
          guidance_components V N K ++ [format_component TF]) =
  ["story_system"; "story_instruction"] ++
  (if opt_readingLevel options then ["reading_level"] else []) ++
  (if opt_storyLength options then ["story_length"] else []) ++
  ["visualization"; "narrative_guidance"; "key_moments_guidance"; "format_instructions"])%list.
Proof.
  split; [apply createTemplateStoryPrompt_eq |].
  split; [apply createKeywordsStoryPrompt_eq |].
  destruct options as [[sl rl] |]; [destruct sl, rl |]; reflexivity.
Qed.

Definition template_ok (p : StoryGenerationParams) : Prop :=
  mode p = "template" /\ exists t, sp_template p = Some t /\ t <> EmptyString.
Definition keywords_ok (p : StoryGenerationParams) : Prop :=
  mode p = "keywords" /\ exists k, sp_keywords p = Some k /\ k <> EmptyString.

Lemma js_truthy_spec (o : option string) :
  js_truthy o = true <-> exists s, o = Some s /\ s <> EmptyString.
Proof.
  destruct o as [s |]; simpl.
  - destruct (String.eqb_spec s EmptyString) as [-> | Hne]; simpl.
    + split; [discriminate | intros [s' [Heq Hne]]; congruence].
    + split; [intros _; exists s; auto | reflexivity].
  - split; [discriminate | intros [s [Heq _]]; discriminate].
Qed.

(** [createStoryPrompt(params)] builds the template prompt when the mode is
    ["template"] and a non-empty template is given, else the keywords
    prompt when the mode is ["keywords"] and non-empty keywords are given;
    it throws, always with the message
    ["Invalid story generation parameters"], exactly when neither holds. *)
Theorem createStoryPrompt_dispatch (V N K TF KF : string) (p : StoryGenerationParams) :
  (forall t, mode p = "template" -> sp_template p = Some t -> t <> EmptyString ->
     createStoryPrompt V N K TF KF p = createTemplateStoryPrompt V N K TF t (sp_options p)) /\
  (forall k, mode p = "keywords" -> sp_keywords p = Some k -> k <> EmptyString ->
     createStoryPrompt V N K TF KF p = createKeywordsStoryPrompt V N K KF k (sp_options p)) /\
  (forall msg, createStoryPrompt V N K TF KF p = Err msg <->
     msg = "Invalid story generation parameters" /\ ~ template_ok p /\ ~ keywords_ok p).
Proof.
  unfold createStoryPrompt, template_ok, keywords_ok.
  split; [| split].
  - intros t Hm Ht Hne. rewrite Hm, Ht. simpl.
    destruct (String.eqb_spec t EmptyString); [congruence | reflexivity].
  - intros k Hm Hk Hne. rewrite Hm, Hk. simpl.
    destruct (String.eqb_spec k EmptyString); [congruence |].
    destruct (js_truthy (sp_template p)); reflexivity.
  - intros msg.
    destruct (String.eqb_spec (mode p) "template") as [Hm | Hm];
      destruct (js_truthy (sp_template p)) eqn:Et; simpl.
    + rewrite createTemplateStoryPrompt_eq. split; [discriminate |].
      intros [_ [Hn _]]. exfalso. apply Hn. split; [exact Hm | apply js_truthy_spec; exact Et].
    + assert (Hnt : ~ (mode p = "template" /\ exists t, sp_template p = Some t /\ t <> EmptyString)).
      { intros [_ Hx]. apply js_truthy_spec in Hx. congruence. }
      replace (String.eqb (mode p) "keywords") with false by (rewrite Hm; reflexivity). simpl.
      split; [intros H; injection H as <-; split; [reflexivity | split; [exact Hnt |]]; intros [Hk _]; rewrite Hm in Hk; discriminate |].
      intros [-> _]. reflexivity.
    + assert (Hnt : ~ (mode p = "template" /\ exists t, sp_template p = Some t /\ t <> EmptyString))
        by (intros [Hx _]; congruence).
      destruct (String.eqb_spec (mode p) "keywords") as [Hk | Hk];
        destruct (js_truthy (sp_keywords p)) eqn:Ek; simpl.
      * rewrite createKeywordsStoryPrompt_eq. split; [discriminate |].
        intros [_ [_ Hn]]. exfalso. apply Hn. split; [exact Hk | apply js_truthy_spec; exact Ek].
      * split; [intros H; injection H as <-; split; [reflexivity | split; [exact Hnt |]] |
                intros [-> _]; reflexivity].
        intros [_ Hx]. apply js_truthy_spec in Hx. congruence.
      * split; [intros H; injection H as <-; split; [reflexivity | split; [exact Hnt |]] |
                intros [-> _]; reflexivity].
        intros [Hx _]. congruence.
      * split; [intros H; injection H as <-; split; [reflexivity | split; [exact Hnt |]] |
                intros [-> _]; reflexivity].
        intros [Hx _]. congruence.
    + assert (Hnt : ~ (mode p = "template" /\ exists t, sp_template p = Some t /\ t <> EmptyString))
        by (intros [Hx _]; congruence).
      destruct (String.eqb_spec (mode p) "keywords") as [Hk | Hk];
        destruct (js_truthy (sp_keywords p)) eqn:Ek; simpl.
      * rewrite createKeywordsStoryPrompt_eq. split; [discriminate |].
        intros [_ [_ Hn]]. exfalso. apply Hn. split; [exact Hk | apply js_truthy_spec; exact Ek].
      * split; [intros H; injection H as <-; split; [reflexivity | split; [exact Hnt |]] |
                intros [-> _]; reflexivity].
        intros [_ Hx]. apply js_truthy_spec in Hx. congruence.
      * split; [intros H; injection H as <-; split; [reflexivity | split; [exact Hnt |]] |
                intros [-> _]; reflexivity].
        intros [Hx _]. congruence.
      * split; [intros H; injection H as <-; split; [reflexivity | split; [exact Hnt |]] |
                intros [-> _]; reflexivity].
        intros [Hx _]. congruence.
Qed.

(** Whatever the tokenizer and the texts, a prompt built by
    [createStoryPrompt(params)] keeps its system prompt, its story
    instruction and its output-format instructions in [buildPrompt()]:
    each has an included entry in [components]. *)
Theorem story_prompt_required_included {token} (encode : string -> list token)
  (decode : list token -> string) (V N K TF KF : string) (p : StoryGenerationParams)
  (pm : PromptManager) :
  createStoryPrompt V N K TF KF p = Ok pm ->
  forall i, In i ["story_system"; "story_instruction"; "format_instructions"] ->
  exists e, In e (components (buildPrompt encode decode pm)) /\
            entry_id e = i /\ included e = true.
Proof.
  intros Hp i Hi.
  assert (Hcs : exists instr fmt rest,
            pm_components pm = (STORY_SYSTEM_PROMPT :: instr :: rest ++ [format_component fmt])%list /\
            id instr = "story_instruction" /\ is_required instr = true).
  { unfold createStoryPrompt in Hp.
    destruct (_ && _).
    - rewrite createTemplateStoryPrompt_eq in Hp. injection Hp as <-.
      exists (template_instruction (match sp_template p with Some t => t | None => EmptyString end)),
        TF, (optional_components (sp_options p) ++ guidance_components V N K)%list.
      split; [cbn [pm_components]; rewrite <- app_assoc; reflexivity |].
      split; reflexivity.
    - destruct (_ && _); [| discriminate].
      rewrite createKeywordsStoryPrompt_eq in Hp. injection Hp as <-.
      exists (keywords_instruction (match sp_keywords p with Some k => k | None => EmptyString end)),
        KF, (optional_components (sp_options p) ++ guidance_components V N K)%list.
      split; [cbn [pm_components]; rewrite <- app_assoc; reflexivity |].
      split; reflexivity. }
  destruct Hcs as [instr [fmt [rest [Hcs [Hid Hreq]]]]].
  assert (Hgo : forall c, In c (pm_components pm) -> is_required c = true -> id c = i ->
            exists e, In e (components (buildPrompt encode decode pm)) /\
                      entry_id e = i /\ included e = true).
  { intros c Hin Hr Hci.
    destruct (buildPrompt_required_entry encode decode pm c Hin Hr) as [e [He [Hei [_ Hinc]]]].
    exists e. rewrite Hei, Hci. auto. }
  rewrite Hcs in Hgo.
  destruct Hi as [<- | [<- | [<- | []]]].
  - apply (Hgo STORY_SYSTEM_PROMPT); [left; reflexivity | reflexivity | reflexivity].
  - apply (Hgo instr); [right; left; reflexivity | exact Hreq | exact Hid].
  - apply (Hgo (format_component fmt)); [| reflexivity | reflexivity].
    right. right. apply in_or_app. right. left. reflexivity.
Qed.

Definition dragon_params : StoryGenerationParams :=
  mkParams "template" (Some "a brave dragon") None None.

Definition dragon_pm : PromptManager :=
  mkPM gpt_4o (DEFAULT_TOKEN_BUDGETS gpt_4o)
    ([STORY_SYSTEM_PROMPT; template_instruction "a brave dragon"] ++
     guidance_components "See." "Arc." "Moments." ++ [format_component "JSON {{theme}}"])
    {[ "theme" := "a brave dragon" ]}.

Lemma story_prompt_required_included_witness :
  createStoryPrompt "See." "Arc." "Moments." "JSON {{theme}}" "Keys." dragon_params = Ok dragon_pm /\
  exists e, In e (components (buildPrompt char_encode char_decode dragon_pm)) /\
            entry_id e = "format_instructions" /\ included e = true.
Proof.
  assert (H : createStoryPrompt "See." "Arc." "Moments." "JSON {{theme}}" "Keys." dragon_params
              = Ok dragon_pm) by reflexivity.
  split; [exact H |].
  apply (story_prompt_required_included char_encode char_decode
           "See." "Arc." "Moments." "JSON {{theme}}" "Keys." dragon_params dragon_pm H).
  right. right. left. reflexivity.
Defined.

Definition analysis_components (ANALYSIS_TASKS ANALYSIS_OUTPUT_FORMAT storyTitle : string)
  (storyContent : list string) (theme : option string) : list PromptComponent :=
  [analysis_system; analysis_instruction storyTitle; story_content_component storyContent] ++
  (match theme with Some t => if js_truthy theme then [theme_component t] else [] | None => [] end) ++
  [analysis_tasks ANALYSIS_TASKS; output_format ANALYSIS_OUTPUT_FORMAT].

(** [createNarrativeAnalysisPrompt(storyTitle, storyContent, theme)] never
    throws: it gives a gpt-4o manager with the default budget, no template
    variables, and the components analysis_system, analysis_instruction,
    story_content (the paragraphs joined with blank lines), theme_info
    (only for a non-empty theme), analysis_tasks and output_format, in
    that order.  All of them but theme_info are required, so whatever the
    tokenizer, [buildPrompt()] has an included entry for each of them. *)
Theorem createNarrativeAnalysisPrompt_spec (T O storyTitle : string)
  (storyContent : list string) (theme : option string) :
  let cs := analysis_components T O storyTitle storyContent theme in
  createNarrativeAnalysisPrompt T O storyTitle storyContent theme =
    Ok (mkPM gpt_4o (DEFAULT_TOKEN_BUDGETS gpt_4o) cs ∅) /\
  map id cs =
    (["analysis_system"; "analysis_instruction"; "story_content"] ++
     (if js_truthy theme then ["theme_info"] else []) ++
     ["analysis_tasks"; "output_format"])%list /\
  content (story_content_component storyContent) = join (nl ++ nl) storyContent /\
  (forall token (encode : string -> list token) (decode : list token -> string) c,
     In c cs -> id c <> "theme_info" ->
     exists e, In e (components (buildPrompt encode decode (mkPM gpt_4o (DEFAULT_TOKEN_BUDGETS gpt_4o) cs ∅))) /\
               entry_id e = id c /\ entry_type e = type c /\ included e = true).
Proof.
  cbv zeta. split; [| split; [| split; [reflexivity |]]].
  - unfold createNarrativeAnalysisPrompt, analysis_components, add_theme.
    destruct theme as [t |]; [| reflexivity].
    destruct (js_truthy (Some t)); reflexivity.
  - unfold analysis_components. destruct theme as [t |]; [destruct (js_truthy (Some t)) |]; reflexivity.
  - intros token encode decode c Hin Hne.
    apply buildPrompt_required_entry; [exact Hin |].
    unfold analysis_components in Hin.
    apply in_app_iff in Hin as [Hin | Hin]; [destruct Hin as [<- | [<- | [<- | []]]]; reflexivity |].
    apply in_app_iff in Hin as [Hin | Hin].
    + destruct theme as [t |]; [destruct (js_truthy (Some t)) |]; [| destruct Hin | destruct Hin].
      destruct Hin as [<- | []]. exfalso. apply Hne. reflexivity.
    + destruct Hin as [<- | [<- | []]]; reflexivity.
Qed.
